(* Shallow embedding of the sequential tool-calling loop of
   backend/ai_generator.py (class AIGenerator).

   Modelling choices:
   - Content blocks are the two block kinds the loop distinguishes by their
     [type] field: "text" and "tool_use".
   - A tool result is a Python value: a string, or any other object (list,
     dict, None, ...), kept with its repr.
   - Tool descriptors are kept as their names.
   - The Anthropic client is a function of the call index, the message list,
     the system string and the tool list put in the request parameters; any
     scripted response sequence is such a function.
   - The tool manager may be stateful: its answer may depend on the list of
     earlier invocations (a scripted mock with side effects).
   - The run keeps an observation log: every API call (with the parameters
     it was sent and the response), every [execute_tool] invocation, and the
     boolean returned by [_execute_tools_and_update_messages].
   - [response.content[0].text] raises AttributeError on a tool_use block
     (the SDK's ToolUseBlock has no [text]) and IndexError on an empty list.
   - [str.lower] is modelled on ASCII letters. *)

From Stdlib Require Import String Ascii List ZArith Lia Bool.
Import ListNotations.

Module AIGen.

Local Open Scope string_scope.
Local Open Scope list_scope.

(** * Data model *)

(** Keyword arguments of a tool call ([content_block.input]). *)
Definition args := list (string * string).

Inductive block :=
| TextBlock (text : string)
| ToolUseBlock (id : string) (name : string) (input : args).

Record response := mkResponse {
  stop_reason : string;
  content : list block
}.

Inductive pyvalue :=
| VStr (s : string)
| VObj (repr : string).

(** [{"type": "tool_result", "tool_use_id": id, "content": tool_result}] *)
Record tool_result := mkToolResult {
  tool_use_id : string;
  result_content : pyvalue
}.

Inductive msg_content :=
| CText (s : string)
| CBlocks (bs : list block)
| CResults (rs : list tool_result).

Record message := mkMessage {
  role : string;
  mcontent : msg_content
}.

Inductive py_exn := AttributeError | IndexError.

Inductive pyres (A : Type) :=
| Ret (a : A)
| Raise (e : py_exn).
Arguments Ret {A} a.
Arguments Raise {A} e.

(** Outcome of [tool_manager.execute_tool(name, **input)]. *)
Inductive tool_outcome :=
| TRet (v : pyvalue)
| TRaise (msg : string).

Definition executor := list (string * args) -> string -> args -> tool_outcome.

Definition client := nat -> list message -> string -> option (list string) -> response.

Inductive event :=
| EModelCall (msgs : list message) (system : string)
             (tools : option (list string)) (resp : response)
| EToolExec (name : string) (input : args)
| ERound (ok : bool).

Record state := mkState {
  messages : list message;
  log : list event
}.

Definition add_event (st : state) (e : event) : state :=
  mkState (messages st) (log st ++ [e]).

Definition add_message (st : state) (m : message) : state :=
  mkState (messages st ++ [m]) (log st).

(** Observations on the log. *)
Fixpoint model_calls (l : list event) : list (list message * string * option (list string) * response) :=
  match l with
  | [] => []
  | EModelCall m s t r :: l' => (m, s, t, r) :: model_calls l'
  | _ :: l' => model_calls l'
  end.

Fixpoint invocations (l : list event) : list (string * args) :=
  match l with
  | [] => []
  | EToolExec n a :: l' => (n, a) :: invocations l'
  | _ :: l' => invocations l'
  end.

Fixpoint rounds_run (l : list event) : list bool :=
  match l with
  | [] => []
  | ERound ok :: l' => ok :: rounds_run l'
  | _ :: l' => rounds_run l'
  end.

(** * Strings *)

Definition lower_ascii (c : ascii) : ascii :=
  let n := nat_of_ascii c in
  if andb (Nat.leb 65 n) (Nat.leb n 90) then ascii_of_nat (n + 32) else c.

Fixpoint lower (s : string) : string :=
  match s with
  | EmptyString => EmptyString
  | String c s' => String (lower_ascii c) (lower s')
  end.

(** Python's [pat in s] for strings. *)
Fixpoint contains (pat s : string) : bool :=
  String.prefix pat s ||
  match s with
  | EmptyString => false
  | String _ s' => contains pat s'
  end.

Fixpoint digits_of_nat (fuel n : nat) (acc : string) : string :=
  match fuel with
  | O => acc
  | S fuel' =>
    let acc' := String (ascii_of_nat (48 + n mod 10)) acc in
    if Nat.ltb n 10 then acc' else digits_of_nat fuel' (n / 10) acc'
  end.

(** [f"{n}"] for a Python int. *)
Definition int_to_string (z : Z) : string :=
  let n := Z.to_nat (Z.abs z) in
  ((if Z.ltb z 0 then "-" else "") ++ digits_of_nat (S n) n "")%string.

(** Python truthiness of an [Optional[str]]. *)
Definition str_truthy (s : option string) : bool :=
  match s with
  | Some (String _ _) => true
  | _ => false
  end.

Fixpoint text_blocks (bs : list block) : list string :=
  match bs with
  | [] => []
  | TextBlock t :: bs' => t :: text_blocks bs'
  | ToolUseBlock _ _ _ :: bs' => text_blocks bs'
  end.

Fixpoint tool_uses (bs : list block) : list (string * string * args) :=
  match bs with
  | [] => []
  | TextBlock _ :: bs' => tool_uses bs'
  | ToolUseBlock i n a :: bs' => (i, n, a) :: tool_uses bs'
  end.

(** [response.content[0].text] *)
Definition first_text (bs : list block) : pyres string :=
  match bs with
  | TextBlock t :: _ => Ret t
  | ToolUseBlock _ _ _ :: _ => Raise AttributeError
  | [] => Raise IndexError
  end.

(** * AIGenerator *)

Definition SYSTEM_PROMPT : string :=
" You are an AI assistant specialized in course materials and educational content with access to comprehensive search and outline tools for course information.

Tool Usage Guidelines:
- **Course Content Search (search_course_content)**: Use for questions about specific course content, concepts, or detailed educational materials
- **Course Outline (get_course_outline)**: Use for questions about course structure, lesson lists, or course overviews
- **Sequential tool calling**: You may use up to 2 tools in separate reasoning steps to gather comprehensive information
- **Tool strategy**: Consider using multiple searches with different parameters or combining content search with outline queries
- After each tool use, you will have opportunity to make additional tool calls if needed
- Synthesize all tool results into accurate, fact-based responses
- If tools yield no results, state this clearly without offering alternatives

Response Protocol:
- **General knowledge questions**: Answer using existing knowledge without using tools
- **Course content questions**: Use search_course_content tool, then optionally refine with additional searches
- **Course outline/structure questions**: Use get_course_outline tool first, then optionally search for specific content
- **Complex queries**: Consider multiple tool calls to gather comprehensive information
- **No meta-commentary**: Provide direct answers only — no reasoning process, tool explanations, or question-type analysis

When you have sufficient information from tool results, provide your final answer without requesting additional tools.

When responding to outline queries, ensure your response includes:
- Course title
- Course link (if available)
- Complete lesson breakdown with lesson numbers and titles

All responses must be:
1. **Brief, Concise and focused** - Get to the point quickly
2. **Educational** - Maintain instructional value
3. **Clear** - Use accessible language
4. **Example-supported** - Include relevant examples when they aid understanding
Provide only the direct answer to what was asked.
".

Definition nl : string := String (ascii_of_nat 10) EmptyString.

Definition FALLBACK : string :=
  "I encountered an issue accessing the course materials. Please try rephrasing your question.".

Definition _initialize_conversation (query : string) (conversation_history : option string)
  : list message :=
  [mkMessage "user" (CText query)].

Definition _build_system_content (conversation_history : option string) (max_rounds : Z)
  : string :=
  let base_content := SYSTEM_PROMPT in
  let round_guidance := (nl ++ "Tool Round Limits: You have up to " ++ int_to_string max_rounds
    ++ " opportunities to use tools in this conversation. Use them strategically to gather the most relevant information.")%string in
  match conversation_history with
  | Some h =>
    if str_truthy conversation_history
    then (base_content ++ round_guidance ++ nl ++ nl ++ "Previous conversation:" ++ nl ++ h)%string
    else (base_content ++ round_guidance)%string
  | None => (base_content ++ round_guidance)%string
  end.

(** [if tools: api_params["tools"] = tools] *)
Definition api_tools (tools : option (list string)) : option (list string) :=
  match tools with
  | Some (t :: ts) => Some (t :: ts)
  | _ => None
  end.

Definition _make_claude_api_call (cl : client) (st : state) (system_content : string)
    (tools : option (list string)) : response * state :=
  let p := api_tools tools in
  let r := cl (length (model_calls (log st))) (messages st) system_content p in
  (r, add_event st (EModelCall (messages st) system_content p r)).

(** The "not found" check of a tool result. *)
Definition is_not_found (v : pyvalue) : bool :=
  match v with
  | VStr s => contains "not found" (lower s)
  | VObj _ => false
  end.

(** The [for content_block in response.content] loop of
    [_execute_tools_and_update_messages]; [None] is [return False], taken
    on the "not found" check or, through [except Exception], when
    [execute_tool] raises. *)
Fixpoint run_tool_blocks (ex : executor) (bs : list block) (tool_results : list tool_result)
    (st : state) : option (list tool_result) * state :=
  match bs with
  | [] => (Some tool_results, st)
  | TextBlock _ :: bs' => run_tool_blocks ex bs' tool_results st
  | ToolUseBlock i n a :: bs' =>
    let st' := add_event st (EToolExec n a) in
    match ex (invocations (log st)) n a with
    | TRaise _ => (None, st')
    | TRet v =>
      if is_not_found v then (None, st')
      else run_tool_blocks ex bs' (tool_results ++ [mkToolResult i v]) st'
    end
  end.

Definition _execute_tools_and_update_messages (ex : executor) (r : response) (st : state)
  : bool * state :=
  let st1 := add_message st (mkMessage "assistant" (CBlocks (content r))) in
  match run_tool_blocks ex (content r) [] st1 with
  | (None, st2) => (false, st2)
  | (Some [], st2) => (true, st2)
  | (Some rs, st2) => (true, add_message st2 (mkMessage "user" (CResults rs)))
  end.

Definition _handle_tool_failure (r : response) : string :=
  match text_blocks (content r) with
  | [] => FALLBACK
  | ts => String.concat " " ts
  end.

Section Loop.

Variable cl : client.
Variable system_content : string.
Variable tools : option (list string).
Variable tool_manager : option executor.
Variable max_rounds : Z.

Definition final_call (st : state) : pyres string * state :=
  let (r, st1) := _make_claude_api_call cl st system_content None in
  (first_text (content r), st1).

(** The [while current_round < max_rounds] loop; [fuel] bounds the
    iterations and is started at [Z.to_nat max_rounds]. *)
Fixpoint rounds_loop (fuel : nat) (current_round : Z) (st : state) : pyres string * state :=
  match fuel with
  | S fuel' =>
    if Z.ltb current_round max_rounds then
      let (r, st1) := _make_claude_api_call cl st system_content tools in
      if negb (String.eqb (stop_reason r) "tool_use") then (first_text (content r), st1)
      else
        match tool_manager with
        | None => (first_text (content r), st1)
        | Some ex =>
          let (ok, st2) := _execute_tools_and_update_messages ex r st1 in
          let st3 := add_event st2 (ERound ok) in
          if negb ok then (Ret (_handle_tool_failure r), st3)
          else rounds_loop fuel' (current_round + 1) st3
        end
    else final_call st
  | O => final_call st
  end.

End Loop.

Definition _execute_sequential_rounds (cl : client) (msgs : list message) (system_content : string)
    (tools : option (list string)) (tool_manager : option executor) (max_rounds : Z)
  : pyres string * state :=
  rounds_loop cl system_content tools tool_manager max_rounds (Z.to_nat max_rounds) 0
    (mkState msgs []).

Definition generate_response (cl : client) (query : string) (conversation_history : option string)
    (tools : option (list string)) (tool_manager : option executor) (max_rounds : Z)
  : pyres string * state :=
  let msgs := _initialize_conversation query conversation_history in
  let system_content := _build_system_content conversation_history max_rounds in
  _execute_sequential_rounds cl msgs system_content tools tool_manager max_rounds.

(** * The single-round path [_handle_tool_execution] *)

(** Result of [_handle_tool_execution]: the answer, an exception of
    [final_response.content[0].text], or an exception of [execute_tool],
    which this path does not catch. *)
Inductive legacy_result :=
| LRet (s : string)
| LRaise (e : py_exn)
| LToolRaise (msg : string).

(** Its [for content_block in initial_response.content] loop: no
    "not found" check, no [try]; [inl msg] is a raised exception. *)
Fixpoint legacy_exec_blocks (ex : executor) (bs : list block) (tool_results : list tool_result)
    (lg : list event) : (string + list tool_result) * list event :=
  match bs with
  | [] => (inr tool_results, lg)
  | TextBlock _ :: bs' => legacy_exec_blocks ex bs' tool_results lg
  | ToolUseBlock i n a :: bs' =>
    let lg' := lg ++ [EToolExec n a] in
    match ex (invocations lg) n a with
    | TRaise m => (inl m, lg')
    | TRet v => legacy_exec_blocks ex bs' (tool_results ++ [mkToolResult i v]) lg'
    end
  end.

(** [base_params] carries ["messages"] and ["system"]; the copy of the
    message list is local to the call, so only the log is returned. The
    final request is built without a ["tools"] key. *)
Definition _handle_tool_execution (cl : client) (ex : executor) (initial_response : response)
    (base_messages : list message) (system : string) (lg : list event)
  : legacy_result * list event :=
  let msgs := base_messages ++ [mkMessage "assistant" (CBlocks (content initial_response))] in
  match legacy_exec_blocks ex (content initial_response) [] lg with
  | (inl m, lg') => (LToolRaise m, lg')
  | (inr rs, lg') =>
    let msgs' := match rs with
                 | [] => msgs
                 | _ => msgs ++ [mkMessage "user" (CResults rs)]
                 end in
    let (r, st) := _make_claude_api_call cl (mkState msgs' lg') system None in
    (match first_text (content r) with
     | Ret t => LRet t
     | Raise e => LRaise e
     end, log st)
  end.

(** * Decimal digits *)

Definition digit_value (c : ascii) : nat := nat_of_ascii c - 48.

Fixpoint parse_digits (v : nat) (s : string) : nat :=
  match s with
  | EmptyString => v
  | String c s' => parse_digits (v * 10 + digit_value c) s'
  end.

(** Reads back [int_to_string]. *)
Definition decode_int (s : string) : Z :=
  match s with
  | String c s' =>
    if Ascii.eqb c "-" then (- Z.of_nat (parse_digits 0 s'))%Z
    else Z.of_nat (parse_digits 0 s)
  | EmptyString => 0%Z
  end.

Fixpoint no_space (s : string) : bool :=
  match s with
  | EmptyString => true
  | String c s' => negb (Ascii.eqb c " ") && no_space s'
  end.

(** * Predicates used by the statements *)

Definition exec_ev (p : string * args) : event := EToolExec (fst p) (snd p).

Definition name_args (u : string * string * args) : string * args :=
  let '(_, n, a) := u in (n, a).

(** Packing of the results of a round: one [tool_result] per tool_use
    block, in block order. *)
Fixpoint pack_results (us : list (string * string * args)) (vs : list pyvalue)
  : list tool_result :=
  match us, vs with
  | (i, _, _) :: us', v :: vs' => mkToolResult i v :: pack_results us' vs'
  | _, _ => []
  end.

(** [ran ex h us vs]: executing the tool_use blocks [us] one after the other,
    starting with invocation history [h], returns the values [vs], none of
    which trips the "not found" check. *)
Inductive ran (ex : executor) : list (string * args) -> list (string * string * args)
    -> list pyvalue -> Prop :=
| ran_nil h : ran ex h [] []
| ran_cons h i n a us v vs :
    ex h n a = TRet v -> is_not_found v = false ->
    ran ex (h ++ [(n, a)]) us vs -> ran ex h ((i, n, a) :: us) (v :: vs).

(** An invocation outcome that makes the round fail: an exception, or a
    string result containing "not found" in any case. *)
Definition aborts_round (o : tool_outcome) : bool :=
  match o with
  | TRaise _ => true
  | TRet v => is_not_found v
  end.

(** [round_aborts ex h bs]: some tool_use block of [bs] fails, all the
    tool_use blocks before it having succeeded. *)
Inductive round_aborts (ex : executor) : list (string * args) -> list block -> Prop :=
| ab_text h t bs : round_aborts ex h bs -> round_aborts ex h (TextBlock t :: bs)
| ab_here h i n a bs : aborts_round (ex h n a) = true ->
    round_aborts ex h (ToolUseBlock i n a :: bs)
| ab_next h i n a bs v : ex h n a = TRet v -> is_not_found v = false ->
    round_aborts ex (h ++ [(n, a)]) bs -> round_aborts ex h (ToolUseBlock i n a :: bs).

Definition call_resp (c : list message * string * option (list string) * response) : response :=
  let '(_, _, _, r) := c in r.
Definition call_msgs (c : list message * string * option (list string) * response) : list message :=
  let '(m, _, _, _) := c in m.
Definition call_tools (c : list message * string * option (list string) * response)
  : option (list string) :=
  let '(_, _, t, _) := c in t.

(** Turns a completed round adds to the conversation: the assistant turn,
    and the user turn of results when the response has a tool_use block. *)
Definition round_growth (r : response) : nat :=
  match tool_uses (content r) with
  | [] => 1
  | _ => 2
  end.

Definition turns_before (cs : list (list message * string * option (list string) * response))
    (k : nat) : nat :=
  1 + list_sum (map (fun c => round_growth (call_resp c)) (firstn k cs)).

Definition snapshots_ok (cs : list (list message * string * option (list string) * response)) :=
  forall k c, nth_error cs k = Some c -> length (call_msgs c) = turns_before cs k.

Definition conv_ok (st : state) :=
  length (messages st) = 1 + list_sum (map (fun c => round_growth (call_resp c))
                                           (model_calls (log st))).

(** Roles of a conversation that alternates user/assistant, starting and
    ending with a user turn, after [n] rounds. *)
Fixpoint alt_roles (n : nat) : list string :=
  match n with
  | O => ["user"]
  | S n' => alt_roles n' ++ ["assistant"; "user"]
  end.

Definition call_system (c : list message * string * option (list string) * response) : string :=
  let '(_, y, _, _) := c in y.

Definition is_prefix {A : Type} (l1 l2 : list A) : Prop := exists s, l2 = l1 ++ s.

Definition use_id (u : string * string * args) : string :=
  let '(i, _, _) := u in i.

(** [ran_all ex h us vs]: executing the tool_use blocks [us] one after the
    other returns the values [vs], with no check on them. *)
Inductive ran_all (ex : executor) : list (string * args) -> list (string * string * args)
    -> list pyvalue -> Prop :=
| ra_nil h : ran_all ex h [] []
| ra_cons h i n a us v vs :
    ex h n a = TRet v -> ran_all ex (h ++ [(n, a)]) us vs ->
    ran_all ex h ((i, n, a) :: us) (v :: vs).

(** The messages of every API call extend those of every earlier call. *)
Definition chain_ok (cs : list (list message * string * option (list string) * response)) :=
  forall i j ci cj, i <= j -> nth_error cs i = Some ci -> nth_error cs j = Some cj ->
    is_prefix (call_msgs ci) (call_msgs cj).

(** The messages [m] follow the call [c] by one completed round: the
    assistant turn of [c]'s response, which has tool_use blocks, and one
    user turn holding one result per block, with the blocks' ids. *)
Definition round_step (c : list message * string * option (list string) * response)
    (m : list message) : Prop :=
  exists rs,
    m = call_msgs c ++ [mkMessage "assistant" (CBlocks (content (call_resp c)));
                        mkMessage "user" (CResults rs)] /\
    tool_uses (content (call_resp c)) <> [] /\
    map tool_use_id rs = map use_id (tool_uses (content (call_resp c))).

Definition steps_ok (cs : list (list message * string * option (list string) * response)) :=
  forall k c c', nth_error cs k = Some c -> nth_error cs (S k) = Some c' ->
    round_step c (call_msgs c').

Definition first_ok (m0 : list message)
    (cs : list (list message * string * option (list string) * response)) :=
  forall c, nth_error cs 0 = Some c -> call_msgs c = m0.

(** State of the conversation at the top of the loop: the initial one
    before any call, one completed round after the last call otherwise. *)
Definition entry_ok (m0 : list message)
    (cs : list (list message * string * option (list string) * response)) (m : list message) :=
  (cs = [] /\ m = m0) \/ exists pre c, cs = pre ++ [c] /\ round_step c m.

(** A tool result that passes the "not found" check: any non-string
    value, or a string without "not found" in any case. *)
Definition passes_check (v : pyvalue) : Prop :=
  match v with
  | VStr s => contains "not found" (lower s) = false
  | VObj _ => True
  end.

(** * Concrete inputs *)

Definition tool_use_resp (i n : string) (a : args) : response :=
  mkResponse "tool_use" [ToolUseBlock i n a].
Definition text_resp (t : string) : response := mkResponse "end_turn" [TextBlock t].

Definition scripted (rs : list response) : client :=
  fun i _ _ _ => nth i rs (text_resp "").

Definition const_exec (v : pyvalue) : executor := fun _ _ _ => TRet v.

Definition raising_exec : executor := fun _ _ _ => TRaise "Tool 'search_course_content' not found".

(** Outline lookups of an unknown course report "not found"; searches work. *)
Definition outline_fails_exec : executor :=
  fun _ n _ =>
    if String.eqb n "get_course_outline" then TRet (VStr "Course 'Advanced ML' Not Found")
    else TRet (VStr "[Course A - Lesson 1] Introduction").

(** Outlines come back as objects (whose repr mentions "not found"),
    searches as strings. *)
Definition mixed_exec : executor :=
  fun _ n _ =>
    if String.eqb n "get_course_outline" then TRet (VObj "{'lessons': ['Lesson 3 not found']}")
    else TRet (VStr "[Course A - Lesson 1] Introduction").

Definition two_tools_resp : response :=
  mkResponse "tool_use"
    [TextBlock "Let me look that up.";
     ToolUseBlock "toolu_1" "search_course_content" [("query", "introduction")];
     ToolUseBlock "toolu_2" "get_course_outline" [("course_name", "Advanced ML")]].

Definition two_texts_resp : response :=
  mkResponse "tool_use"
    [TextBlock "Let me check"; TextBlock "the outline.";
     ToolUseBlock "toolu_1" "get_course_outline" [("course_name", "Course A")]].

Definition catalog : list string := ["search_course_content"; "get_course_outline"].

(** A client that asks for a tool on every call. *)
Definition budget_client : client :=
  scripted [tool_use_resp "t1" "get_course_outline" [("course_name", "Course A")];
            tool_use_resp "t2" "search_course_content" [("query", "introduction")];
            tool_use_resp "t3" "search_course_content" [("query", "more")]].

Definition budget_run : pyres string * state :=
  generate_response budget_client "Compare courses" None (Some catalog)
    (Some (const_exec (VStr "Tool result"))) 2.

Definition start_state (query : string) : state :=
  mkState (_initialize_conversation query None) [].


(** * General lemmas *)

Lemma model_calls_app l1 l2 : model_calls (l1 ++ l2) = model_calls l1 ++ model_calls l2.
Proof. induction l1 as [|[] l1 IH]; simpl; rewrite ?IH; reflexivity. Qed.

Lemma invocations_app l1 l2 : invocations (l1 ++ l2) = invocations l1 ++ invocations l2.
Proof. induction l1 as [|[] l1 IH]; simpl; rewrite ?IH; reflexivity. Qed.

Lemma rounds_run_app l1 l2 : rounds_run (l1 ++ l2) = rounds_run l1 ++ rounds_run l2.
Proof. induction l1 as [|[] l1 IH]; simpl; rewrite ?IH; reflexivity. Qed.

Lemma model_calls_exec us : model_calls (map exec_ev us) = [].
Proof. induction us; simpl; auto. Qed.

Lemma rounds_run_exec us : rounds_run (map exec_ev us) = [].
Proof. induction us; simpl; auto. Qed.

Lemma invocations_exec us : invocations (map exec_ev us) = us.
Proof. induction us as [|[] us IH]; simpl; rewrite ?IH; auto. Qed.

Ltac evlog_simpl :=
  rewrite ?model_calls_app, ?invocations_app, ?rounds_run_app,
    ?model_calls_exec, ?rounds_run_exec, ?invocations_exec, ?app_nil_r.

Tactic Notation "evlog_simpl" "in" hyp_list(Hs) :=
  rewrite ?model_calls_app, ?invocations_app, ?rounds_run_app,
    ?model_calls_exec, ?rounds_run_exec, ?invocations_exec, ?app_nil_r in Hs.

(** The block loop only adds tool invocations to the log and leaves the
    messages alone. *)
Lemma run_tool_blocks_shape ex bs acc st :
  exists us, log (snd (run_tool_blocks ex bs acc st)) = log st ++ map exec_ev us /\
             messages (snd (run_tool_blocks ex bs acc st)) = messages st.
Proof.
  revert acc st; induction bs as [|[t|i n a] bs IH]; intros acc st; simpl.
  - exists []; rewrite app_nil_r; auto.
  - apply IH.
  - destruct (ex (invocations (log st)) n a) as [v|m].
    + destruct (is_not_found v).
      * exists [(n, a)]; auto.
      * destruct (IH (acc ++ [mkToolResult i v]) (add_event st (EToolExec n a)))
          as [us [Hl Hm]].
        exists ((n, a) :: us); rewrite Hl, Hm; simpl; rewrite <- app_assoc; auto.
    + exists [(n, a)]; auto.
Qed.

Lemma exec_tools_log ex r st :
  exists us, log (snd (_execute_tools_and_update_messages ex r st)) = log st ++ map exec_ev us.
Proof.
  unfold _execute_tools_and_update_messages.
  destruct (run_tool_blocks_shape ex (content r) []
              (add_message st (mkMessage "assistant" (CBlocks (content r))))) as [us [Hl _]].
  destruct (run_tool_blocks ex (content r) [] _) as [[[|x xs]|] st2]; simpl in *;
    exists us; exact Hl.
Qed.

Lemma ran_length ex h us vs : ran ex h us vs -> length vs = length us.
Proof. induction 1; simpl; auto. Qed.

Lemma run_tool_blocks_ok ex bs acc st rs st' :
  run_tool_blocks ex bs acc st = (Some rs, st') ->
  exists vs, ran ex (invocations (log st)) (tool_uses bs) vs /\
    rs = acc ++ pack_results (tool_uses bs) vs /\
    log st' = log st ++ map exec_ev (map name_args (tool_uses bs)) /\
    messages st' = messages st.
Proof.
  revert acc st; induction bs as [|[t|i n a] bs IH]; intros acc st H; simpl in *.
  - inversion H; subst. exists []; repeat split; try constructor; rewrite ?app_nil_r; auto.
  - apply IH; exact H.
  - destruct (ex (invocations (log st)) n a) as [v|m] eqn:Ex; [|discriminate].
    destruct (is_not_found v) eqn:Nf; [discriminate|].
    destruct (IH _ _ H) as [vs [Hr [Hrs [Hl Hm]]]].
    exists (v :: vs); simpl in *.
    evlog_simpl in Hr. simpl in Hr.
    repeat split.
    + constructor; auto.
    + rewrite Hrs, <- app_assoc; reflexivity.
    + rewrite Hl, <- app_assoc; reflexivity.
    + exact Hm.
Qed.

Lemma run_tool_blocks_abort ex bs acc st :
  round_aborts ex (invocations (log st)) bs -> fst (run_tool_blocks ex bs acc st) = None.
Proof.
  intros H; remember (invocations (log st)) as h eqn:Eh.
  revert acc st Eh; induction H; intros acc st Eh; subst; simpl.
  - eapply IHround_aborts; eauto.
  - unfold aborts_round in H. destruct (ex _ n a); [rewrite H|]; reflexivity.
  - rewrite H, H0. apply IHround_aborts.
    simpl. evlog_simpl. reflexivity.
Qed.

Lemma make_call_eq cl st sys t :
  _make_claude_api_call cl st sys t =
  (cl (length (model_calls (log st))) (messages st) sys (api_tools t),
   add_event st (EModelCall (messages st) sys (api_tools t)
                  (cl (length (model_calls (log st))) (messages st) sys (api_tools t)))).
Proof. reflexivity. Qed.

Lemma pack_results_nil us vs :
  length vs = length us -> pack_results us vs = [] -> us = [].
Proof. destruct us as [|[[i n] a] us], vs; simpl; congruence. Qed.

(** A successful round: one invocation per tool_use block, in block order,
    and one user turn holding all the results. *)
Lemma exec_tools_true ex r st st' :
  _execute_tools_and_update_messages ex r st = (true, st') ->
  exists vs, ran ex (invocations (log st)) (tool_uses (content r)) vs /\
    log st' = log st ++ map exec_ev (map name_args (tool_uses (content r))) /\
    messages st' = messages st ++ [mkMessage "assistant" (CBlocks (content r))] ++
      match tool_uses (content r) with
      | [] => []
      | _ => [mkMessage "user" (CResults (pack_results (tool_uses (content r)) vs))]
      end.
Proof.
  unfold _execute_tools_and_update_messages; intros H.
  destruct (run_tool_blocks ex (content r) [] _) as [[rs|] st2] eqn:E; [|discriminate].
  apply run_tool_blocks_ok in E as [vs [Hr [Hrs [Hl Hm]]]]. simpl in *.
  exists vs.
  pose proof (ran_length _ _ _ _ Hr) as Hlen.
  destruct rs as [|x xs]; inversion H; subst; clear H; simpl.
  - symmetry in Hrs. pose proof (pack_results_nil _ _ Hlen Hrs) as Hu.
    rewrite Hu in *. simpl in *. repeat split; auto.
  - destruct (tool_uses (content r)) eqn:Hu.
    + destruct vs; discriminate.
    + simpl. rewrite Hm, Hrs, <- app_assoc. repeat split; auto.
Qed.

Lemma run_tool_blocks_fail ex bs acc st st' :
  run_tool_blocks ex bs acc st = (None, st') ->
  exists pre i n a post vs,
    tool_uses bs = pre ++ (i, n, a) :: post /\
    ran ex (invocations (log st)) pre vs /\
    aborts_round (ex (invocations (log st) ++ map name_args pre) n a) = true /\
    log st' = log st ++ map exec_ev (map name_args pre ++ [(n, a)]) /\
    messages st' = messages st.
Proof.
  revert acc st; induction bs as [|[t|i n a] bs IH]; intros acc st H; simpl in *.
  - discriminate.
  - eapply IH; exact H.
  - destruct (ex (invocations (log st)) n a) as [v|m] eqn:Ex.
    + destruct (is_not_found v) eqn:Nf.
      * inversion H; subst.
        exists [], i, n, a, (tool_uses bs), []; simpl.
        rewrite app_nil_r, Ex; simpl. repeat split; auto; constructor.
      * destruct (IH _ _ H) as [pre [i' [n' [a' [post [vs [Hu [Hr [Ha [Hl Hm]]]]]]]]]].
        simpl in *. evlog_simpl in Hr Ha. simpl in Hr, Ha.
        rewrite <- app_assoc in Ha; simpl in Ha.
        exists ((i, n, a) :: pre), i', n', a', post, (v :: vs); simpl.
        rewrite Hu, Hl, Hm, <- app_assoc. repeat split; auto.
        constructor; auto.
    + inversion H; subst.
      exists [], i, n, a, (tool_uses bs), []; simpl.
      rewrite app_nil_r, Ex; simpl. repeat split; auto; constructor.
Qed.

Lemma exec_tools_false ex r st st' :
  _execute_tools_and_update_messages ex r st = (false, st') ->
  messages st' = messages st ++ [mkMessage "assistant" (CBlocks (content r))] /\
  exists pre i n a post vs,
    tool_uses (content r) = pre ++ (i, n, a) :: post /\
    ran ex (invocations (log st)) pre vs /\
    aborts_round (ex (invocations (log st) ++ map name_args pre) n a) = true /\
    log st' = log st ++ map exec_ev (map name_args pre ++ [(n, a)]).
Proof.
  unfold _execute_tools_and_update_messages.
  destruct (run_tool_blocks ex (content r) [] _) as [[[|x xs]|] st2] eqn:E;
    try discriminate.
  intros H; inversion H; subst; clear H.
  apply run_tool_blocks_fail in E as [pre [i [n [a [post [vs [Hu [Hr [Ha [Hl Hm]]]]]]]]]].
  simpl in *. split; [exact Hm|].
  exists pre, i, n, a, post, vs; repeat split; auto.
Qed.

(** One iteration of the loop body, after the API call. *)
Ltac loop_step :=
  cbn [rounds_loop];
  lazymatch goal with
  | |- context [Z.ltb ?c ?m] => destruct (Z.ltb c m) eqn:Hguard
  end;
  [ rewrite make_call_eq; cbn beta iota zeta;
    lazymatch goal with
    | |- context [add_event ?s0 (EModelCall ?m ?y ?t ?x)] =>
      set (r := x) in *; set (st1 := add_event s0 (EModelCall m y t r)) in *
    end
  | ].

Ltac final_step :=
  cbn [rounds_loop]; unfold final_call; rewrite make_call_eq; cbn beta iota zeta.

Section LoopFacts.

Variable cl : client.
Variable sys : string.
Variable tools : option (list string).
Variable tm : option executor.
Variable mx : Z.

Lemma rounds_loop_bound fuel : forall cur st,
  length (model_calls (log (snd (rounds_loop cl sys tools tm mx fuel cur st)))) <= length (model_calls (log st)) + S fuel /\
  length (rounds_run (log (snd (rounds_loop cl sys tools tm mx fuel cur st)))) <= length (rounds_run (log st)) + fuel.
Proof.
  induction fuel as [|f IH]; intros cur st.
  - final_step; simpl; evlog_simpl; simpl; rewrite length_app; simpl; split; lia.
  - loop_step.
    + assert (Hc1 : length (model_calls (log st1)) = S (length (model_calls (log st))))
        by (subst st1; simpl; evlog_simpl; rewrite length_app; simpl; lia).
      assert (Hr1 : rounds_run (log st1) = rounds_run (log st))
        by (subst st1; simpl; evlog_simpl; reflexivity).
      clearbody st1.
      destruct (stop_reason r =? "tool_use")%string; simpl; [|rewrite Hr1; split; lia].
      destruct tm as [ex|]; simpl; [|rewrite Hr1; split; lia].
      destruct (_execute_tools_and_update_messages ex r st1) as [ok st2] eqn:E.
      destruct (exec_tools_log ex r st1) as [us Hl]; rewrite E in Hl; simpl in Hl.
      assert (Hc2 : length (model_calls (log (add_event st2 (ERound ok)))) =
                    S (length (model_calls (log st))))
        by (simpl; rewrite Hl; evlog_simpl; simpl; rewrite ?app_nil_r; lia).
      assert (Hr2 : length (rounds_run (log (add_event st2 (ERound ok)))) =
                    S (length (rounds_run (log st))))
        by (simpl; rewrite Hl; evlog_simpl; rewrite Hr1, length_app; simpl; lia).
      destruct ok; simpl.
      * destruct (IH (cur + 1)%Z (add_event st2 (ERound true))) as [A B].
        simpl in A, B, Hc2, Hr2. split; lia.
      * simpl in Hc2, Hr2. split; lia.
    + final_step; simpl; evlog_simpl; simpl; rewrite length_app; simpl; split; lia.
Qed.

Lemma snapshots_snoc cs c :
  snapshots_ok cs ->
  length (call_msgs c) = 1 + list_sum (map (fun c => round_growth (call_resp c)) cs) ->
  snapshots_ok (cs ++ [c]).
Proof.
  intros Hok Hc k c' Hk. unfold turns_before.
  destruct (Nat.lt_ge_cases k (length cs)) as [Hlt|Hge].
  - rewrite nth_error_app1 in Hk by exact Hlt.
    rewrite firstn_app, (proj2 (Nat.sub_0_le k (length cs))) by lia.
    simpl; rewrite app_nil_r. apply Hok; exact Hk.
  - rewrite nth_error_app2 in Hk by exact Hge.
    destruct (k - length cs) as [|j] eqn:Hj; simpl in Hk.
    + inversion Hk; subst c'.
      replace k with (length cs) by lia. rewrite firstn_app, Nat.sub_diag; simpl.
      rewrite firstn_all, app_nil_r. exact Hc.
    + destruct j; discriminate.
Qed.

Lemma exec_tools_growth ex r st st' :
  _execute_tools_and_update_messages ex r st = (true, st') ->
  length (messages st') = length (messages st) + round_growth r.
Proof.
  intros H; destruct (exec_tools_true _ _ _ _ H) as [vs [_ [_ Hm]]].
  rewrite Hm; unfold round_growth.
  destruct (tool_uses (content r)); rewrite !length_app; simpl; lia.
Qed.

Lemma rounds_loop_snapshots fuel : forall cur st,
  snapshots_ok (model_calls (log st)) -> conv_ok st ->
  snapshots_ok (model_calls (log (snd (rounds_loop cl sys tools tm mx fuel cur st)))).
Proof.
  induction fuel as [|f IH]; intros cur st Hs Hc.
  - final_step; simpl; evlog_simpl; simpl.
    apply snapshots_snoc; [exact Hs | exact Hc].
  - loop_step.
    + assert (Hs1 : snapshots_ok (model_calls (log st1)))
        by (subst st1; simpl; evlog_simpl; simpl; apply snapshots_snoc; [exact Hs | exact Hc]).
      assert (Hm1 : messages st1 = messages st) by (subst st1; reflexivity).
      assert (Hc1 : model_calls (log st1) =
                    model_calls (log st) ++ [(messages st, sys, api_tools tools, r)])
        by (subst st1; simpl; evlog_simpl; reflexivity).
      clearbody st1.
      destruct (stop_reason r =? "tool_use")%string; simpl; [|exact Hs1].
      destruct tm as [ex|]; simpl; [|exact Hs1].
      destruct (_execute_tools_and_update_messages ex r st1) as [ok st2] eqn:E.
      destruct (exec_tools_log ex r st1) as [us Hl]; rewrite E in Hl; simpl in Hl.
      assert (Hs3 : snapshots_ok (model_calls (log (add_event st2 (ERound ok)))))
        by (simpl; rewrite Hl; evlog_simpl; simpl; rewrite ?app_nil_r; exact Hs1).
      destruct ok; simpl; [|exact Hs3].
      apply IH; [exact Hs3|].
      unfold conv_ok; simpl. rewrite Hl; evlog_simpl; simpl; rewrite ?app_nil_r.
      rewrite (exec_tools_growth _ _ _ _ E).
      unfold conv_ok in Hc. rewrite Hm1, Hc1, map_app, list_sum_app; simpl. lia.
    + final_step; simpl; evlog_simpl; simpl.
      apply snapshots_snoc; [exact Hs | exact Hc].
Qed.

Lemma rounds_loop_exhausted fuel : forall cur st,
  (cur + Z.of_nat fuel = mx)%Z ->
  rounds_run (log (snd (rounds_loop cl sys tools tm mx fuel cur st))) =
    rounds_run (log st) ++ repeat true fuel ->
  exists pre m y r,
    model_calls (log (snd (rounds_loop cl sys tools tm mx fuel cur st))) =
      model_calls (log st) ++ pre ++ [(m, y, None, r)] /\
    length pre = fuel /\
    fst (rounds_loop cl sys tools tm mx fuel cur st) = first_text (content r).
Proof.
  induction fuel as [|f IH]; intros cur st Hcur.
  - intros _. final_step.
    exists [], (messages st), sys, (cl (length (model_calls (log st))) (messages st) sys None).
    simpl; evlog_simpl; simpl. repeat split.
  - loop_step.
    2:{ apply Z.ltb_ge in Hguard. lia. }
    assert (Hr1 : rounds_run (log st1) = rounds_run (log st))
      by (subst st1; simpl; evlog_simpl; reflexivity).
    assert (Hc1 : model_calls (log st1) =
                  model_calls (log st) ++ [(messages st, sys, api_tools tools, r)])
      by (subst st1; simpl; evlog_simpl; reflexivity).
    clearbody st1.
    assert (Hno : rounds_run (log st1) <> rounds_run (log st) ++ repeat true (S f)).
    { rewrite Hr1; intros H. apply (f_equal (@length bool)) in H.
      rewrite length_app in H; simpl in H; lia. }
    destruct (stop_reason r =? "tool_use")%string; simpl; [|intros Hrun; contradiction].
    destruct tm as [ex|]; simpl; [|intros Hrun; contradiction].
    destruct (_execute_tools_and_update_messages ex r st1) as [ok st2] eqn:E.
    destruct (exec_tools_log ex r st1) as [us Hl]; rewrite E in Hl; simpl in Hl.
    assert (Hr3 : rounds_run (log (add_event st2 (ERound ok))) = rounds_run (log st) ++ [ok])
      by (simpl; rewrite Hl; evlog_simpl; rewrite Hr1; reflexivity).
    assert (Hc3 : model_calls (log (add_event st2 (ERound ok))) =
                  model_calls (log st) ++ [(messages st, sys, api_tools tools, r)])
      by (simpl; rewrite Hl; evlog_simpl; rewrite Hc1; simpl; rewrite ?app_nil_r; reflexivity).
    destruct ok; simpl; intros Hrun.
    + assert (Hrun' : rounds_run (log (snd (rounds_loop cl sys tools (Some ex) mx f (cur + 1)
                          (add_event st2 (ERound true))))) =
                      rounds_run (log (add_event st2 (ERound true))) ++ repeat true f)
        by (rewrite Hr3, <- app_assoc; exact Hrun).
      destruct (IH (cur + 1)%Z (add_event st2 (ERound true)) ltac:(lia) Hrun')
        as [pre [m [y [r' [Hm [Hlen Hres]]]]]].
      exists ((messages st, sys, api_tools tools, r) :: pre), m, y, r'.
      rewrite Hm, Hc3, <- app_assoc; simpl. auto.
    + exfalso. simpl in Hr3. rewrite Hr3 in Hrun. apply app_inv_head in Hrun. discriminate.
Qed.

End LoopFacts.

(** * Scenarios *)

Example scenario_two_rounds :
  let '(res, st) := generate_response
      (scripted [tool_use_resp "t1" "get_course_outline" [("course_name", "Course A")];
                 tool_use_resp "t2" "search_course_content" [("query", "introduction")];
                 text_resp "Final"])
      "Compare courses" None (Some ["search_course_content"; "get_course_outline"])
      (Some (const_exec (VStr "Tool result"))) 2 in
  res = Ret "Final" /\ length (model_calls (log st)) = 3 /\
  invocations (log st) = [("get_course_outline", [("course_name", "Course A")]);
                          ("search_course_content", [("query", "introduction")])].
Proof. vm_compute. auto. Qed.

Example int_to_string_ex : int_to_string 2 = "2" /\ int_to_string 120 = "120" /\ int_to_string (-7) = "-7".
Proof. vm_compute. auto. Qed.


(** A tool_use response without a tool_use block makes
    a round that succeeds and appends the assistant turn alone, so after
    that round the conversation has 2 turns, not 3. *)
Example round_without_tool_block :
  let st := snd (generate_response
                   (scripted [mkResponse "tool_use" [TextBlock "Checking."]; text_resp "Done"])
                   "q" None (Some catalog) (Some (const_exec (VStr "ok"))) 1) in
  rounds_run (log st) = [true] /\
  match nth_error (model_calls (log st)) 1 with
  | Some c => length (call_msgs c) = 2 /\ length (call_msgs c) <> 1 + 2 * 1
  | None => False
  end.
Proof. vm_compute. split; [reflexivity | split; [reflexivity | discriminate]]. Qed.

(** * Claims *)

(** C1: with [max_rounds = N], a [generate_response] call makes at most
    [N + 1] API calls and runs at most [N] tool rounds, whatever the client
    responses and the tool manager; the loop terminates (the function is
    total). *)
Theorem C1_calls_and_rounds_bounded (cl : client) (query : string)
    (history : option string) (tools : option (list string)) (tm : option executor) (N : nat) :
  let st := snd (generate_response cl query history tools tm (Z.of_nat N)) in
  length (model_calls (log st)) <= N + 1 /\ length (rounds_run (log st)) <= N.
Proof.
  unfold generate_response, _execute_sequential_rounds; cbv zeta.
  rewrite Nat2Z.id.
  destruct (rounds_loop_bound cl (_build_system_content history (Z.of_nat N)) tools tm
              (Z.of_nat N) N 0 (mkState (_initialize_conversation query history) []))
    as [A B].
  simpl in A, B. split; lia.
Qed.

(** C2 (amended): in a loop iteration whose API response asks for tools and
    whose round aborts (an [execute_tool] raises, or a string result holds
    "not found" in any case), the loop returns at once, without raising: no
    further API call, the tool results are not added to the messages (only
    the assistant turn is), and the answer is the response's text blocks
    joined with single spaces, or the fixed fallback message when there is
    none. *)
Theorem C2_tool_failure_terminates (cl : client) (sys : string) (tools : option (list string))
    (ex : executor) (mx : Z) (fuel : nat) (cur : Z) (st : state) (r : response)
    (Hguard : (cur < mx)%Z)
    (Hr : cl (length (model_calls (log st))) (messages st) sys (api_tools tools) = r)
    (Hstop : stop_reason r = "tool_use")
    (Hab : round_aborts ex (invocations (log st)) (content r)) :
  exists st',
    rounds_loop cl sys tools (Some ex) mx (S fuel) cur st =
      (Ret (match text_blocks (content r) with
            | [] => FALLBACK
            | ts => String.concat " " ts
            end), st') /\
    model_calls (log st') = model_calls (log st) ++ [(messages st, sys, api_tools tools, r)] /\
    messages st' = messages st ++ [mkMessage "assistant" (CBlocks (content r))].
Proof.
  cbn [rounds_loop]. apply Z.ltb_lt in Hguard; rewrite Hguard.
  rewrite make_call_eq; cbn beta iota zeta. rewrite Hr, Hstop; simpl.
  set (st1 := add_event st (EModelCall (messages st) sys (api_tools tools) r)).
  assert (Hab1 : round_aborts ex (invocations (log (add_message st1
                   (mkMessage "assistant" (CBlocks (content r)))))) (content r))
    by (simpl; evlog_simpl; simpl; rewrite ?app_nil_r; exact Hab).
  unfold _execute_tools_and_update_messages.
  pose proof (run_tool_blocks_abort ex (content r) [] _ Hab1) as Hnone.
  destruct (run_tool_blocks_shape ex (content r) []
              (add_message st1 (mkMessage "assistant" (CBlocks (content r)))))
    as [us [Hl Hm]].
  destruct (run_tool_blocks ex (content r) [] _) as [o st2]; simpl in Hnone, Hl, Hm.
  subst o; simpl.
  eexists; split; [reflexivity|]. simpl.
  rewrite Hl, Hm; evlog_simpl; simpl; rewrite ?app_nil_r. auto.
Qed.

Lemma C2_tool_failure_terminates_witness :
  (0 < 2)%Z /\
  scripted [tool_use_resp "toolu_1" "search_course_content" [("query", "MCP")]]
    (length (model_calls (log (start_state "What is MCP?"))))
    (messages (start_state "What is MCP?")) "" (api_tools (Some catalog)) =
    tool_use_resp "toolu_1" "search_course_content" [("query", "MCP")] /\
  stop_reason (tool_use_resp "toolu_1" "search_course_content" [("query", "MCP")]) = "tool_use" /\
  round_aborts raising_exec (invocations (log (start_state "What is MCP?")))
    (content (tool_use_resp "toolu_1" "search_course_content" [("query", "MCP")])) /\
  exists st',
    rounds_loop (scripted [tool_use_resp "toolu_1" "search_course_content" [("query", "MCP")]])
      "" (Some catalog) (Some raising_exec) 2 2 0 (start_state "What is MCP?") =
      (Ret FALLBACK, st') /\
    model_calls (log st') =
      model_calls (log (start_state "What is MCP?")) ++
      [(messages (start_state "What is MCP?"), "", api_tools (Some catalog),
        tool_use_resp "toolu_1" "search_course_content" [("query", "MCP")])] /\
    messages st' = messages (start_state "What is MCP?") ++
      [mkMessage "assistant"
         (CBlocks (content (tool_use_resp "toolu_1" "search_course_content" [("query", "MCP")])))].
Proof.
  split; [lia|]. split; [reflexivity|]. split; [reflexivity|].
  split; [apply ab_here; reflexivity|].
  apply (C2_tool_failure_terminates
           (scripted [tool_use_resp "toolu_1" "search_course_content" [("query", "MCP")]])
           "" (Some catalog) raising_exec 2 1 0 (start_state "What is MCP?")
           (tool_use_resp "toolu_1" "search_course_content" [("query", "MCP")])).
  - lia.
  - reflexivity.
  - reflexivity.
  - apply ab_here; reflexivity.
Defined.

(** C2 as stated fails: with two text blocks the answer is not their
    plain concatenation; [" ".join] puts a space between them. *)
Lemma C2_join_not_concatenation :
  fst (generate_response (scripted [two_texts_resp]) "Outline of Course A?" None
         (Some catalog) (Some raising_exec) 2)
  <> Ret (String.concat "" (text_blocks (content two_texts_resp))) /\
  fst (generate_response (scripted [two_texts_resp]) "Outline of Course A?" None
         (Some catalog) (Some raising_exec) 2)
  = Ret "Let me check the outline.".
Proof. vm_compute. split; [discriminate | reflexivity]. Qed.

(** C3: [response.content[0].text] does not look for a text block. A
    tool_use response with no tool manager, whose only block is a tool_use
    block, makes [generate_response] raise AttributeError; an end_turn
    response with no content makes it raise IndexError. *)
Theorem C3_no_text_block_raises :
  fst (generate_response (scripted [tool_use_resp "toolu_1" "search_course_content" [("query", "MCP")]])
         "What is MCP?" None (Some catalog) None 2) = Raise AttributeError /\
  fst (generate_response (scripted [mkResponse "end_turn" []])
         "What is MCP?" None (Some catalog) (Some (const_exec (VStr "ok"))) 2) = Raise IndexError.
Proof. vm_compute. split; reflexivity. Qed.

(** C4 as stated fails: with a catalog and no tool manager, the API call
    of the loop is sent with the catalog. *)
Lemma C4_catalog_offered_without_executor :
  ~ Forall (fun c => call_tools c = None)
      (model_calls (log (snd (generate_response (scripted [text_resp "Hello!"])
                                 "Hi" None (Some catalog) None 2)))).
Proof. vm_compute. intros H. inversion H. discriminate. Qed.

(** C6: when the [N] rounds of a [max_rounds = N] call all succeed, exactly
    one more API call follows them, sent without the tool catalog, and
    [generate_response] returns the text read from its response. *)
Theorem C6_final_call_after_budget (cl : client) (query : string) (history : option string)
    (tools : option (list string)) (ex : executor) (N : nat) (res : pyres string) (st : state)
    (Hrun : generate_response cl query history tools (Some ex) (Z.of_nat N) = (res, st))
    (Hrounds : rounds_run (log st) = repeat true N) :
  exists pre m y r,
    model_calls (log st) = pre ++ [(m, y, None, r)] /\ length pre = N /\
    res = first_text (content r).
Proof.
  revert Hrun. unfold generate_response, _execute_sequential_rounds; cbv zeta.
  rewrite Nat2Z.id. intros Hrun.
  destruct (rounds_loop_exhausted cl (_build_system_content history (Z.of_nat N)) tools (Some ex)
              (Z.of_nat N) N 0 (mkState (_initialize_conversation query history) []))
    as [pre [m [y [r [Hm [Hlen Hres]]]]]].
  - lia.
  - rewrite Hrun; simpl. exact Hrounds.
  - rewrite Hrun in Hm, Hres; simpl in Hm, Hres.
    exists pre, m, y, r. auto.
Qed.

Lemma C6_final_call_after_budget_witness :
  generate_response budget_client "Compare courses" None (Some catalog)
      (Some (const_exec (VStr "Tool result"))) (Z.of_nat 2)
    = (fst budget_run, snd budget_run) /\
  rounds_run (log (snd budget_run)) = repeat true 2 /\
  exists pre m y r,
    model_calls (log (snd budget_run)) = pre ++ [(m, y, None, r)] /\ length pre = 2 /\
    fst budget_run = first_text (content r).
Proof.
  split; [vm_compute; reflexivity|]. split; [vm_compute; reflexivity|].
  apply (C6_final_call_after_budget budget_client "Compare courses" None (Some catalog)
           (const_exec (VStr "Tool result")) 2 (fst budget_run) (snd budget_run)).
  - vm_compute; reflexivity.
  - vm_compute; reflexivity.
Defined.

(** C7: in a successful round, [execute_tool] is invoked once per tool_use
    block of the response, in block order (each call seeing the earlier ones
    in its history), and all results, in that order, go into one new user
    turn after the assistant turn. *)
Theorem C7_round_packs_results (ex : executor) (r : response) (st st' : state)
    (Hok : _execute_tools_and_update_messages ex r st = (true, st')) :
  exists vs, ran ex (invocations (log st)) (tool_uses (content r)) vs /\
    log st' = log st ++ map exec_ev (map name_args (tool_uses (content r))) /\
    messages st' = messages st ++ [mkMessage "assistant" (CBlocks (content r))] ++
      match tool_uses (content r) with
      | [] => []
      | _ => [mkMessage "user" (CResults (pack_results (tool_uses (content r)) vs))]
      end.
Proof. exact (exec_tools_true ex r st st' Hok). Qed.

Lemma C7_round_packs_results_witness :
  let r := mkResponse "tool_use"
             [ToolUseBlock "toolu_1" "get_course_outline" [("course_name", "Course A")];
              ToolUseBlock "toolu_2" "search_course_content" [("query", "introduction")]] in
  let ex := const_exec (VStr "Lesson 1: Introduction") in
  _execute_tools_and_update_messages ex r (start_state "q") =
    (true, snd (_execute_tools_and_update_messages ex r (start_state "q"))) /\
  exists vs, ran ex (invocations (log (start_state "q"))) (tool_uses (content r)) vs /\
    log (snd (_execute_tools_and_update_messages ex r (start_state "q"))) =
      log (start_state "q") ++ map exec_ev (map name_args (tool_uses (content r))) /\
    messages (snd (_execute_tools_and_update_messages ex r (start_state "q"))) =
      messages (start_state "q") ++ [mkMessage "assistant" (CBlocks (content r))] ++
      match tool_uses (content r) with
      | [] => []
      | _ => [mkMessage "user" (CResults (pack_results (tool_uses (content r)) vs))]
      end.
Proof.
  intros r ex. split; [vm_compute; reflexivity|].
  apply C7_round_packs_results. vm_compute. reflexivity.
Defined.

(** C9: when a round fails at some tool_use block, every earlier block of
    the round has already been executed (successfully, in order) and logged,
    the failing invocation too, and the assistant turn stays in the
    messages; only the tool results are dropped. *)
Theorem C9_failure_keeps_earlier_effects (ex : executor) (r : response) (st st' : state)
    (Hfail : _execute_tools_and_update_messages ex r st = (false, st')) :
  messages st' = messages st ++ [mkMessage "assistant" (CBlocks (content r))] /\
  exists pre i n a post vs,
    tool_uses (content r) = pre ++ (i, n, a) :: post /\
    ran ex (invocations (log st)) pre vs /\
    aborts_round (ex (invocations (log st) ++ map name_args pre) n a) = true /\
    log st' = log st ++ map exec_ev (map name_args pre ++ [(n, a)]).
Proof. exact (exec_tools_false ex r st st' Hfail). Qed.

Lemma C9_failure_keeps_earlier_effects_witness :
  _execute_tools_and_update_messages outline_fails_exec two_tools_resp (start_state "q") =
    (false, snd (_execute_tools_and_update_messages outline_fails_exec two_tools_resp
                   (start_state "q"))) /\
  let st' := snd (_execute_tools_and_update_messages outline_fails_exec two_tools_resp
                    (start_state "q")) in
  messages st' = messages (start_state "q") ++
    [mkMessage "assistant" (CBlocks (content two_tools_resp))] /\
  exists pre i n a post vs,
    tool_uses (content two_tools_resp) = pre ++ (i, n, a) :: post /\
    ran outline_fails_exec (invocations (log (start_state "q"))) pre vs /\
    aborts_round (outline_fails_exec (invocations (log (start_state "q")) ++ map name_args pre) n a)
      = true /\
    log st' = log (start_state "q") ++ map exec_ev (map name_args pre ++ [(n, a)]).
Proof.
  split; [vm_compute; reflexivity|].
  apply C9_failure_keeps_earlier_effects. vm_compute. reflexivity.
Defined.

(** C10: with [max_rounds = 0] the loop body never runs: one API call,
    with the query as the only message and without the catalog, no tool
    invocation, and the answer read from that response. *)
Theorem C10_zero_rounds (cl : client) (query : string) (history : option string)
    (tools : option (list string)) (tm : option executor) :
  exists r,
    model_calls (log (snd (generate_response cl query history tools tm 0))) =
      [([mkMessage "user" (CText query)], _build_system_content history 0, None, r)] /\
    invocations (log (snd (generate_response cl query history tools tm 0))) = [] /\
    fst (generate_response cl query history tools tm 0) = first_text (content r).
Proof.
  unfold generate_response, _execute_sequential_rounds; cbv zeta.
  cbn [Z.to_nat rounds_loop]. unfold final_call. rewrite make_call_eq; cbn beta iota zeta.
  eexists; repeat split.
Qed.

(** * Further properties of AIGenerator *)

(** ** Strings and decimal digits *)

Lemma str_app_assoc (a b c : string) : ((a ++ b) ++ c)%string = (a ++ (b ++ c))%string.
Proof. induction a as [|x a IH]; simpl; rewrite ?IH; reflexivity. Qed.

Lemma str_app_cancel_l (a b c : string) : (a ++ b)%string = (a ++ c)%string -> b = c.
Proof. induction a as [|x a IH]; simpl; [auto | intros H; injection H; auto]. Qed.

Lemma str_app_nil_r (a : string) : (a ++ "")%string = a.
Proof. induction a as [|x a IH]; simpl; rewrite ?IH; reflexivity. Qed.

Lemma digit_char_nat d : d < 10 -> nat_of_ascii (ascii_of_nat (48 + d)) = 48 + d.
Proof. intros H. apply nat_ascii_embedding. lia. Qed.

Lemma digit_char_neq d c : d < 10 -> nat_of_ascii c < 48 -> Ascii.eqb (ascii_of_nat (48 + d)) c = false.
Proof.
  intros Hd Hc. destruct (Ascii.eqb _ c) eqn:E; [|reflexivity].
  apply Ascii.eqb_eq in E. rewrite <- E, digit_char_nat in Hc by exact Hd. lia.
Qed.

Lemma digits_parse fuel : forall n acc, n < fuel ->
  exists k, forall v, parse_digits v (digits_of_nat fuel n acc) = parse_digits (v * 10 ^ k + n) acc.
Proof.
  induction fuel as [|f IH]; intros n acc Hn; [lia|].
  cbn [digits_of_nat]. destruct (Nat.ltb n 10) eqn:Hlt.
  - apply Nat.ltb_lt in Hlt. exists 1. intros v. cbn [parse_digits]. unfold digit_value.
    rewrite digit_char_nat by (apply Nat.mod_upper_bound; lia).
    rewrite Nat.mod_small by exact Hlt. f_equal. simpl. lia.
  - apply Nat.ltb_ge in Hlt.
    destruct (IH (n / 10) (String (ascii_of_nat (48 + n mod 10)) acc)) as [k Hk].
    { apply Nat.lt_le_trans with n; [apply Nat.div_lt; lia | lia]. }
    exists (S k). intros v. rewrite Hk. cbn [parse_digits]. unfold digit_value.
    rewrite digit_char_nat by (apply Nat.mod_upper_bound; lia).
    f_equal. pose proof (Nat.div_mod_eq n 10) as Hdm. rewrite Nat.pow_succ_r'. nia.
Qed.

Lemma digits_head f : forall n acc,
  exists c s', digits_of_nat (S f) n acc = String c s' /\ Ascii.eqb c "-" = false.
Proof.
  induction f as [|f IH]; intros n acc; cbn [digits_of_nat].
  - destruct (Nat.ltb n 10); do 2 eexists; split; try reflexivity;
      apply digit_char_neq; try (apply Nat.mod_upper_bound; lia);
      apply Nat.ltb_lt; reflexivity.
  - destruct (Nat.ltb n 10).
    + do 2 eexists; split; [reflexivity|].
      apply digit_char_neq; [apply Nat.mod_upper_bound; lia | apply Nat.ltb_lt; reflexivity].
    + apply IH.
Qed.

Lemma no_space_digits fuel : forall n acc, no_space (digits_of_nat fuel n acc) = no_space acc.
Proof.
  induction fuel as [|f IH]; intros n acc; cbn [digits_of_nat]; [reflexivity|].
  assert (Hd : no_space (String (ascii_of_nat (48 + n mod 10)) acc) = no_space acc).
  { cbn [no_space]. rewrite digit_char_neq; [reflexivity | apply Nat.mod_upper_bound; lia |].
    apply Nat.ltb_lt; reflexivity. }
  destruct (Nat.ltb n 10); [exact Hd | rewrite IH; exact Hd].
Qed.

Lemma decode_int_to_string z : decode_int (int_to_string z) = z.
Proof.
  unfold int_to_string.
  set (n := Z.to_nat (Z.abs z)).
  destruct (digits_parse (S n) n "" (Nat.lt_succ_diag_r n)) as [k Hk].
  destruct (Z.ltb z 0) eqn:Hz; cbn [append].
  - unfold decode_int. cbn [Ascii.eqb Bool.eqb]. cbv iota.
    rewrite Hk. cbn [parse_digits]. subst n. apply Z.ltb_lt in Hz. lia.
  - destruct (digits_head n n "") as [c [s' [Hs Hc]]].
    unfold decode_int. rewrite Hs, Hc, <- Hs, Hk.
    cbn [parse_digits]. subst n. apply Z.ltb_ge in Hz. lia.
Qed.

Lemma int_to_string_inj z1 z2 : int_to_string z1 = int_to_string z2 -> z1 = z2.
Proof.
  intros H. rewrite <- (decode_int_to_string z1), <- (decode_int_to_string z2), H. reflexivity.
Qed.

Lemma no_space_int_to_string z : no_space (int_to_string z) = true.
Proof.
  unfold int_to_string. destruct (Z.ltb z 0); cbn [append no_space]; rewrite no_space_digits; reflexivity.
Qed.

Lemma app_space_cancel (s1 s2 t1 t2 : string) :
  no_space s1 = true -> no_space s2 = true ->
  (s1 ++ String " " t1)%string = (s2 ++ String " " t2)%string -> s1 = s2.
Proof.
  revert s2; induction s1 as [|c1 s1 IH]; intros [|c2 s2] H1 H2 H; simpl in *; auto.
  - injection H as Hc _. subst c2. discriminate.
  - injection H as Hc _. subst c1. discriminate.
  - injection H as Hc H. subst c2. apply andb_prop in H1 as [_ H1].
    apply andb_prop in H2 as [_ H2]. f_equal. apply IH; auto.
Qed.

Lemma lower_app (a b : string) : lower (a ++ b) = (lower a ++ lower b)%string.
Proof. induction a as [|x a IH]; simpl; rewrite ?IH; reflexivity. Qed.

Lemma prefix_app (p b : string) : String.prefix p (p ++ b) = true.
Proof.
  induction p as [|x p IH]; simpl; [destruct b; reflexivity|].
  destruct (ascii_dec x x) as [_|n]; [exact IH | contradiction].
Qed.

Lemma contains_app (pat a b : string) : contains pat (a ++ pat ++ b) = true.
Proof.
  induction a as [|x a IH]; cbn [append].
  - pose proof (prefix_app pat b) as Hp. destruct (pat ++ b)%string;
      cbn [contains]; rewrite Hp; reflexivity.
  - cbn [contains]. rewrite IH, orb_true_r. reflexivity.
Qed.

(** ** Rounds *)

Lemma run_tool_blocks_none ex bs acc st st' :
  run_tool_blocks ex bs acc st = (None, st') -> round_aborts ex (invocations (log st)) bs.
Proof.
  revert acc st; induction bs as [|[t|i n a] bs IH]; intros acc st H; simpl in H.
  - discriminate.
  - apply ab_text. eapply IH; exact H.
  - destruct (ex (invocations (log st)) n a) as [v|m] eqn:Ex.
    + destruct (is_not_found v) eqn:Nf.
      * apply ab_here. rewrite Ex; exact Nf.
      * eapply ab_next; [exact Ex | exact Nf |].
        apply IH in H. simpl in H. evlog_simpl in H. exact H.
    + apply ab_here. rewrite Ex; reflexivity.
Qed.

Lemma map_use_id_pack us vs :
  length vs = length us -> map tool_use_id (pack_results us vs) = map use_id us.
Proof.
  revert vs; induction us as [|[[i n] a] us IH]; intros [|v vs] H; simpl in *;
    try discriminate; auto.
  rewrite IH by lia; reflexivity.
Qed.

(** ** The single-round path *)

Lemma ran_all_length ex h us vs : ran_all ex h us vs -> length vs = length us.
Proof. induction 1; simpl; auto. Qed.

Lemma legacy_exec_ok ex bs acc lg rs lg' :
  legacy_exec_blocks ex bs acc lg = (inr rs, lg') ->
  exists vs, ran_all ex (invocations lg) (tool_uses bs) vs /\
    rs = acc ++ pack_results (tool_uses bs) vs /\
    lg' = lg ++ map exec_ev (map name_args (tool_uses bs)).
Proof.
  revert acc lg; induction bs as [|[t|i n a] bs IH]; intros acc lg H; simpl in H.
  - inversion H; subst. exists []; simpl; rewrite !app_nil_r; repeat split; constructor.
  - apply IH; exact H.
  - destruct (ex (invocations lg) n a) as [v|m] eqn:Ex; [|discriminate].
    destruct (IH _ _ H) as [vs [Hr [Hrs Hl]]].
    evlog_simpl in Hr. simpl in Hr.
    exists (v :: vs); simpl. repeat split.
    + constructor; auto.
    + rewrite Hrs, <- app_assoc; reflexivity.
    + rewrite Hl, <- app_assoc; reflexivity.
Qed.

Lemma legacy_exec_raise ex bs acc lg m lg' :
  legacy_exec_blocks ex bs acc lg = (inl m, lg') ->
  exists pre i n a post vs,
    tool_uses bs = pre ++ (i, n, a) :: post /\
    ran_all ex (invocations lg) pre vs /\
    ex (invocations lg ++ map name_args pre) n a = TRaise m /\
    lg' = lg ++ map exec_ev (map name_args pre ++ [(n, a)]).
Proof.
  revert acc lg; induction bs as [|[t|i n a] bs IH]; intros acc lg H; simpl in H.
  - discriminate.
  - eapply IH; exact H.
  - destruct (ex (invocations lg) n a) as [v|m'] eqn:Ex.
    + destruct (IH _ _ H) as [pre [i' [n' [a' [post [vs [Hu [Hr [Hx Hl]]]]]]]]].
      evlog_simpl in Hr Hx. simpl in Hr, Hx. rewrite <- app_assoc in Hx; simpl in Hx.
      exists ((i, n, a) :: pre), i', n', a', post, (v :: vs); simpl.
      rewrite Hu, Hl, <- app_assoc. repeat split; auto. constructor; auto.
    + inversion H; subst.
      exists [], i, n, a, (tool_uses bs), []; simpl.
      rewrite app_nil_r. repeat split; auto. constructor.
Qed.

(** ** The loop *)

Lemma round_effects ex r st ok st2 :
  _execute_tools_and_update_messages ex r st = (ok, st2) ->
  model_calls (log (add_event st2 (ERound ok))) = model_calls (log st) /\
  rounds_run (log (add_event st2 (ERound ok))) = rounds_run (log st) ++ [ok] /\
  messages (add_event st2 (ERound ok)) = messages st2 /\
  exists s, messages st2 = messages st ++ mkMessage "assistant" (CBlocks (content r)) :: s.
Proof.
  intros E.
  destruct (exec_tools_log ex r st) as [us Hl]; rewrite E in Hl; simpl in Hl.
  simpl. rewrite Hl. evlog_simpl. simpl. rewrite ?app_nil_r.
  repeat split; auto.
  destruct ok.
  - destruct (exec_tools_true _ _ _ _ E) as [vs [_ [_ Hm]]]. rewrite Hm. eexists; reflexivity.
  - destruct (exec_tools_false _ _ _ _ E) as [Hm _]. rewrite Hm. exists []; reflexivity.
Qed.

Lemma nth_error_snoc_all {A : Type} (P : nat -> A -> Prop) (cs : list A) (c : A) :
  (forall k x, nth_error cs k = Some x -> P k x) -> P (length cs) c ->
  forall k x, nth_error (cs ++ [c]) k = Some x -> P k x.
Proof.
  intros Hcs Hc k x Hk.
  destruct (Nat.lt_ge_cases k (length cs)) as [Hlt|Hge].
  - rewrite nth_error_app1 in Hk by exact Hlt. apply Hcs; exact Hk.
  - rewrite nth_error_app2 in Hk by exact Hge.
    destruct (k - length cs) as [|j] eqn:Hj; simpl in Hk.
    + inversion Hk; subst. replace k with (length cs) by lia. exact Hc.
    + destruct j; discriminate.
Qed.

Lemma is_prefix_refl {A : Type} (l : list A) : is_prefix l l.
Proof. exists []; rewrite app_nil_r; reflexivity. Qed.

Lemma is_prefix_trans {A : Type} (l1 l2 l3 : list A) :
  is_prefix l1 l2 -> is_prefix l2 l3 -> is_prefix l1 l3.
Proof. intros [s1 ->] [s2 ->]. exists (s1 ++ s2). symmetry; apply app_assoc. Qed.

Lemma is_prefix_app {A : Type} (l1 l2 s : list A) : is_prefix l1 l2 -> is_prefix l1 (l2 ++ s).
Proof. intros H. eapply is_prefix_trans; [exact H | exists s; reflexivity]. Qed.

(** Invariant of the conversation: it extends [m0], and so does every call
    so far, each of which it extends. *)
Definition prefix_inv (m0 : list message)
    (cs : list (list message * string * option (list string) * response)) (m : list message) :=
  is_prefix m0 m /\ chain_ok cs /\
  Forall (fun c => is_prefix m0 (call_msgs c) /\ is_prefix (call_msgs c) m) cs.

Lemma prefix_inv_call m0 cs m y t r :
  prefix_inv m0 cs m -> prefix_inv m0 (cs ++ [(m, y, t, r)]) m.
Proof.
  intros [H0 [Hch Hall]]. split; [exact H0|]. split.
  - intros i j ci cj Hij Hi Hj.
    destruct (Nat.lt_ge_cases j (length cs)) as [Hlt|Hge].
    + rewrite nth_error_app1 in Hj by exact Hlt.
      rewrite nth_error_app1 in Hi by lia. eapply Hch; [exact Hij | exact Hi | exact Hj].
    + rewrite nth_error_app2 in Hj by exact Hge.
      destruct (j - length cs) as [|k] eqn:Hk; [|destruct k; discriminate].
      simpl in Hj; inversion Hj; subst cj; simpl.
      destruct (Nat.lt_ge_cases i (length cs)) as [Hlt'|Hge'].
      * rewrite nth_error_app1 in Hi by exact Hlt'.
        apply nth_error_In in Hi. rewrite Forall_forall in Hall.
        apply (Hall ci Hi).
      * rewrite nth_error_app2 in Hi by exact Hge'.
        destruct (i - length cs) as [|k'] eqn:Hk'; [|destruct k'; discriminate].
        simpl in Hi; inversion Hi; subst ci. apply is_prefix_refl.
  - apply Forall_app; split; [exact Hall|].
    constructor; [|constructor]. simpl. split; [exact H0 | apply is_prefix_refl].
Qed.

Lemma prefix_inv_grow m0 cs m s : prefix_inv m0 cs m -> prefix_inv m0 cs (m ++ s).
Proof.
  intros [H0 [Hch Hall]]. split; [apply is_prefix_app; exact H0|]. split; [exact Hch|].
  eapply Forall_impl; [|exact Hall]. intros c [A B]. split; [exact A | apply is_prefix_app; exact B].
Qed.

Section ExtraLoopFacts.

Variable cl : client.
Variable sys : string.
Variable tools : option (list string).
Variable tm : option executor.
Variable mx : Z.

Lemma rounds_loop_system fuel : forall cur st,
  Forall (fun c => call_system c = sys) (model_calls (log st)) ->
  Forall (fun c => call_system c = sys)
    (model_calls (log (snd (rounds_loop cl sys tools tm mx fuel cur st)))).
Proof.
  induction fuel as [|f IH]; intros cur st H.
  - final_step; simpl; evlog_simpl; simpl. apply Forall_app; split; [exact H | repeat constructor].
  - loop_step.
    + assert (H1 : Forall (fun c => call_system c = sys) (model_calls (log st1)))
        by (subst st1; simpl; evlog_simpl; apply Forall_app; split; [exact H | repeat constructor]).
      clearbody st1.
      destruct (stop_reason r =? "tool_use")%string; cbn [negb]; [|exact H1].
      destruct tm as [ex|]; [|exact H1].
      destruct (_execute_tools_and_update_messages ex r st1) as [ok st2] eqn:E.
      destruct (round_effects _ _ _ _ _ E) as [Hc _].
      destruct ok; cbn [negb snd].
      * apply IH. rewrite Hc; exact H1.
      * rewrite Hc; exact H1.
    + final_step; simpl; evlog_simpl; simpl. apply Forall_app; split; [exact H | repeat constructor].
Qed.

Lemma rounds_loop_prefix m0 fuel : forall cur st,
  prefix_inv m0 (model_calls (log st)) (messages st) ->
  prefix_inv m0 (model_calls (log (snd (rounds_loop cl sys tools tm mx fuel cur st))))
    (messages (snd (rounds_loop cl sys tools tm mx fuel cur st))).
Proof.
  induction fuel as [|f IH]; intros cur st H.
  - final_step; simpl; evlog_simpl; simpl. apply prefix_inv_call; exact H.
  - loop_step.
    + assert (H1 : prefix_inv m0 (model_calls (log st1)) (messages st1))
        by (subst st1; simpl; evlog_simpl; apply prefix_inv_call; exact H).
      clearbody st1.
      destruct (stop_reason r =? "tool_use")%string; cbn [negb]; [|exact H1].
      destruct tm as [ex|]; [|exact H1].
      destruct (_execute_tools_and_update_messages ex r st1) as [ok st2] eqn:E.
      destruct (round_effects _ _ _ _ _ E) as [Hc [_ [Hm3 [sx Hm2]]]].
      assert (H3 : prefix_inv m0 (model_calls (log (add_event st2 (ERound ok))))
                     (messages (add_event st2 (ERound ok)))).
      { rewrite Hc, Hm3, Hm2. apply prefix_inv_grow; exact H1. }
      destruct ok; cbn [negb snd].
      * apply IH; exact H3.
      * exact H3.
    + final_step; simpl; evlog_simpl; simpl. apply prefix_inv_call; exact H.
Qed.

Lemma rounds_loop_tools fuel : forall cur st,
  (0 <= cur)%Z -> length (model_calls (log st)) = Z.to_nat cur ->
  fuel = Z.to_nat (mx - cur) ->
  (forall k c, nth_error (model_calls (log st)) k = Some c ->
     call_tools c = if Nat.ltb k (Z.to_nat mx) then api_tools tools else None) ->
  forall k c, nth_error (model_calls (log (snd (rounds_loop cl sys tools tm mx fuel cur st)))) k
                = Some c ->
     call_tools c = if Nat.ltb k (Z.to_nat mx) then api_tools tools else None.
Proof.
  induction fuel as [|f IH]; intros cur st Hcur Hlen Hf H.
  - final_step; simpl; evlog_simpl; simpl.
    apply nth_error_snoc_all; [exact H|]. simpl.
    rewrite Hlen. destruct (Nat.ltb_spec (Z.to_nat cur) (Z.to_nat mx)); [lia | reflexivity].
  - loop_step.
    2:{ apply Z.ltb_ge in Hguard. lia. }
    assert (Hidx : Nat.ltb (length (model_calls (log st))) (Z.to_nat mx) = true)
      by (apply Nat.ltb_lt; lia).
    assert (H1 : forall k c, nth_error (model_calls (log st1)) k = Some c ->
               call_tools c = if Nat.ltb k (Z.to_nat mx) then api_tools tools else None).
    { subst st1; simpl; evlog_simpl; simpl.
      apply nth_error_snoc_all; [exact H|]. simpl. rewrite Hidx. reflexivity. }
    assert (Hl1 : length (model_calls (log st1)) = S (length (model_calls (log st))))
      by (subst st1; simpl; evlog_simpl; rewrite length_app; simpl; lia).
    clearbody st1.
    destruct (stop_reason r =? "tool_use")%string; cbn [negb]; [|exact H1].
    destruct tm as [ex|]; [|exact H1].
    destruct (_execute_tools_and_update_messages ex r st1) as [ok st2] eqn:E.
    destruct (round_effects _ _ _ _ _ E) as [Hc _].
    destruct ok; cbn [negb snd].
    + apply IH; [lia | rewrite Hc; lia | lia | rewrite Hc; exact H1].
    + rewrite Hc; exact H1.
Qed.

Lemma rounds_loop_end fuel : forall cur st,
  exists k pre c,
    model_calls (log (snd (rounds_loop cl sys tools tm mx fuel cur st))) =
      model_calls (log st) ++ pre ++ [c] /\ length pre = k /\
    ((rounds_run (log (snd (rounds_loop cl sys tools tm mx fuel cur st))) =
        rounds_run (log st) ++ repeat true k /\
      fst (rounds_loop cl sys tools tm mx fuel cur st) = first_text (content (call_resp c))) \/
     (rounds_run (log (snd (rounds_loop cl sys tools tm mx fuel cur st))) =
        rounds_run (log st) ++ repeat true k ++ [false] /\
      fst (rounds_loop cl sys tools tm mx fuel cur st) = Ret (_handle_tool_failure (call_resp c)) /\
      stop_reason (call_resp c) = "tool_use")).
Proof.
  induction fuel as [|f IH]; intros cur st.
  - final_step. exists 0, [].
    eexists; simpl; evlog_simpl; simpl. split; [reflexivity|]. split; [reflexivity|].
    left; split; reflexivity.
  - loop_step.
    + assert (Hr1 : rounds_run (log st1) = rounds_run (log st))
        by (subst st1; simpl; evlog_simpl; reflexivity).
      assert (Hc1 : model_calls (log st1) =
                    model_calls (log st) ++ [(messages st, sys, api_tools tools, r)])
        by (subst st1; simpl; evlog_simpl; reflexivity).
      clearbody st1.
      destruct (stop_reason r =? "tool_use")%string eqn:Hs; cbn [negb].
      2:{ exists 0, [], (messages st, sys, api_tools tools, r). cbn [fst snd]. rewrite Hc1, Hr1.
          simpl. rewrite app_nil_r. split; [reflexivity|]. split; [reflexivity|].
          left; split; reflexivity. }
      destruct tm as [ex|].
      2:{ exists 0, [], (messages st, sys, api_tools tools, r). cbn [fst snd]. rewrite Hc1, Hr1.
          simpl. rewrite app_nil_r. split; [reflexivity|]. split; [reflexivity|].
          left; split; reflexivity. }
      destruct (_execute_tools_and_update_messages ex r st1) as [ok st2] eqn:E.
      destruct (round_effects _ _ _ _ _ E) as [Hc [Hr _]].
      rewrite Hc1 in Hc. rewrite Hr1 in Hr.
      destruct ok; cbn [negb fst snd].
      * destruct (IH (cur + 1)%Z (add_event st2 (ERound true)))
          as [k [pre [c [Hm [Hlen Hend]]]]].
        exists (S k), ((messages st, sys, api_tools tools, r) :: pre), c.
        rewrite Hm, Hc, <- app_assoc. split; [reflexivity|]. split; [simpl; lia|].
        rewrite Hr, <- !app_assoc in Hend. exact Hend.
      * exists 0, [], (messages st, sys, api_tools tools, r). rewrite Hc, Hr.
        split; [reflexivity|]. split; [reflexivity|].
        right. split; [reflexivity|]. split; [reflexivity|].
        apply String.eqb_eq; exact Hs.
    + final_step. exists 0, [].
      eexists; simpl; evlog_simpl; simpl. split; [reflexivity|]. split; [reflexivity|].
      left; split; reflexivity.
Qed.

Section RolesAlternate.

Hypothesis Hcl : forall i m y t, stop_reason (cl i m y t) = "tool_use" ->
  tool_uses (content (cl i m y t)) <> [].

Lemma rounds_loop_roles fuel : forall cur st,
  map role (messages st) = alt_roles (length (model_calls (log st))) ->
  (forall k c, nth_error (model_calls (log st)) k = Some c -> map role (call_msgs c) = alt_roles k) ->
  forall k c, nth_error (model_calls (log (snd (rounds_loop cl sys tools tm mx fuel cur st)))) k
                = Some c ->
     map role (call_msgs c) = alt_roles k.
Proof.
  induction fuel as [|f IH]; intros cur st Hm H.
  - final_step; simpl; evlog_simpl; simpl.
    apply nth_error_snoc_all; [exact H | exact Hm].
  - loop_step.
    + assert (H1 : forall k c, nth_error (model_calls (log st1)) k = Some c ->
                  map role (call_msgs c) = alt_roles k).
      { subst st1; simpl; evlog_simpl; simpl.
        apply nth_error_snoc_all; [exact H | exact Hm]. }
      assert (Hl1 : length (model_calls (log st1)) = S (length (model_calls (log st))))
        by (subst st1; simpl; evlog_simpl; rewrite length_app; simpl; lia).
      assert (Hm1 : messages st1 = messages st) by (subst st1; reflexivity).
      assert (Hu : stop_reason r = "tool_use" -> tool_uses (content r) <> []) by apply Hcl.
      clearbody st1 r.
      destruct (stop_reason r =? "tool_use")%string eqn:Hs; cbn [negb]; [|exact H1].
      apply String.eqb_eq in Hs. specialize (Hu Hs).
      destruct tm as [ex|]; [|exact H1].
      destruct (_execute_tools_and_update_messages ex r st1) as [ok st2] eqn:E.
      destruct (round_effects _ _ _ _ _ E) as [Hc [_ [Hm3 _]]].
      destruct ok; cbn [negb snd].
      * apply IH; [|rewrite Hc; exact H1].
        rewrite Hm3, Hc, Hl1.
        destruct (exec_tools_true _ _ _ _ E) as [vs [_ [_ Hm2]]].
        rewrite Hm2, Hm1. destruct (tool_uses (content r)); [contradiction|].
        rewrite !map_app, Hm. reflexivity.
      * rewrite Hc; exact H1.
    + final_step; simpl; evlog_simpl; simpl.
      apply nth_error_snoc_all; [exact H | exact Hm].
Qed.

End RolesAlternate.

End ExtraLoopFacts.

(** ** Extra properties *)

(** The round guidance names [max_rounds] faithfully: two system contents
    built with the same history are equal only for the same [max_rounds]. *)
Theorem X_system_content_determines_max_rounds (history : option string) (m1 m2 : Z)
    (H : _build_system_content history m1 = _build_system_content history m2) :
  m1 = m2.
Proof.
  revert H. unfold _build_system_content; cbv zeta.
  assert (Key : forall t1 t2 : string,
    (SYSTEM_PROMPT ++ (nl ++ "Tool Round Limits: You have up to " ++ int_to_string m1 ++
       " opportunities to use tools in this conversation. Use them strategically to gather the most relevant information.") ++ t1)%string =
    (SYSTEM_PROMPT ++ (nl ++ "Tool Round Limits: You have up to " ++ int_to_string m2 ++
       " opportunities to use tools in this conversation. Use them strategically to gather the most relevant information.") ++ t2)%string ->
    m1 = m2).
  { intros t1 t2 H. apply str_app_cancel_l in H. rewrite !str_app_assoc in H.
    apply str_app_cancel_l in H. rewrite ?str_app_assoc in H.
    apply str_app_cancel_l in H. rewrite ?str_app_assoc in H.
    apply app_space_cancel in H; try apply no_space_int_to_string.
    apply int_to_string_inj; exact H. }
  destruct history as [h|]; [destruct (str_truthy (Some h))|]; intros H.
  - eapply Key; exact H.
  - apply (Key "" ""). rewrite !str_app_nil_r. exact H.
  - apply (Key "" ""). rewrite !str_app_nil_r. exact H.
Qed.

Lemma X_system_content_determines_max_rounds_witness :
  _build_system_content (Some "User asked about MCP") 3 =
    _build_system_content (Some "User asked about MCP") 3 /\ (3 = 3)%Z.
Proof.
  split; [reflexivity|].
  apply (X_system_content_determines_max_rounds (Some "User asked about MCP") 3 3).
  reflexivity.
Defined.

(** A string tool result containing "not found" in any letter case, at any
    position, trips the failure check. *)
Theorem X_not_found_anywhere_any_case (a b s : string) (Hs : lower s = "not found") :
  is_not_found (VStr (a ++ s ++ b)) = true.
Proof.
  unfold is_not_found. rewrite !lower_app, Hs. apply contains_app.
Qed.

Lemma X_not_found_anywhere_any_case_witness :
  lower "NoT FOUND" = "not found" /\
  is_not_found (VStr ("Course 'Advanced ML' " ++ "NoT FOUND" ++ " in the catalog")) = true.
Proof.
  split; [reflexivity|].
  apply X_not_found_anywhere_any_case. reflexivity.
Defined.


(** A round fails exactly when some tool_use block aborts it, the blocks
    before it having succeeded. *)
Theorem X_round_fails_iff_aborts (ex : executor) (r : response) (st : state) :
  fst (_execute_tools_and_update_messages ex r st) = false <->
  round_aborts ex (invocations (log st)) (content r).
Proof.
  unfold _execute_tools_and_update_messages.
  set (st1 := add_message st (mkMessage "assistant" (CBlocks (content r)))).
  assert (Hh : invocations (log st1) = invocations (log st)) by reflexivity.
  split.
  - destruct (run_tool_blocks ex (content r) [] st1) as [[[|x xs]|] st2] eqn:E;
      simpl; try discriminate.
    intros _. rewrite <- Hh. eapply run_tool_blocks_none; exact E.
  - intros Hab. rewrite <- Hh in Hab.
    pose proof (run_tool_blocks_abort ex (content r) [] st1 Hab) as Hn.
    destruct (run_tool_blocks ex (content r) [] st1) as [o st2]; simpl in Hn; subst o.
    reflexivity.
Qed.

(** In a successful round with tool_use blocks, the new user turn holds one
    result per block, carrying the blocks' ids in block order. *)
Theorem X_result_ids_match_blocks (ex : executor) (r : response) (st st' : state)
    (Hok : _execute_tools_and_update_messages ex r st = (true, st'))
    (Huse : tool_uses (content r) <> []) :
  exists rs,
    messages st' = messages st ++ [mkMessage "assistant" (CBlocks (content r));
                                   mkMessage "user" (CResults rs)] /\
    map tool_use_id rs = map use_id (tool_uses (content r)).
Proof.
  destruct (exec_tools_true _ _ _ _ Hok) as [vs [Hr [_ Hm]]].
  exists (pack_results (tool_uses (content r)) vs). split.
  - rewrite Hm. destruct (tool_uses (content r)); [contradiction | reflexivity].
  - apply map_use_id_pack. eapply ran_length; exact Hr.
Qed.

Lemma X_result_ids_match_blocks_witness :
  _execute_tools_and_update_messages (const_exec (VStr "Lesson 1: Introduction"))
      two_tools_resp (start_state "q") =
    (true, snd (_execute_tools_and_update_messages (const_exec (VStr "Lesson 1: Introduction"))
                  two_tools_resp (start_state "q"))) /\
  tool_uses (content two_tools_resp) <> [] /\
  exists rs,
    messages (snd (_execute_tools_and_update_messages (const_exec (VStr "Lesson 1: Introduction"))
                     two_tools_resp (start_state "q"))) =
      messages (start_state "q") ++ [mkMessage "assistant" (CBlocks (content two_tools_resp));
                                     mkMessage "user" (CResults rs)] /\
    map tool_use_id rs = map use_id (tool_uses (content two_tools_resp)).
Proof.
  split; [vm_compute; reflexivity|]. split; [discriminate|].
  apply (X_result_ids_match_blocks (const_exec (VStr "Lesson 1: Introduction")) two_tools_resp
           (start_state "q")); [vm_compute; reflexivity | discriminate].
Defined.

(** [_handle_tool_execution], when no [execute_tool] raises: every tool_use
    block is executed in order, its result kept whatever it says (there is
    no "not found" check on this path), and exactly one API call follows,
    without the catalog, on the base messages, the assistant turn and, when
    there are results, one user turn holding them; the answer is that
    call's [content[0].text]. *)
Theorem X_legacy_single_call (cl : client) (ex : executor) (r0 : response)
    (base : list message) (sys : string) (lg lg' : list event) (res : legacy_result)
    (Hrun : _handle_tool_execution cl ex r0 base sys lg = (res, lg'))
    (Hnr : forall m, res <> LToolRaise m) :
  exists vs r,
    ran_all ex (invocations lg) (tool_uses (content r0)) vs /\
    lg' = lg ++ map exec_ev (map name_args (tool_uses (content r0))) ++
      [EModelCall (base ++ [mkMessage "assistant" (CBlocks (content r0))] ++
                   match tool_uses (content r0) with
                   | [] => []
                   | _ => [mkMessage "user" (CResults (pack_results (tool_uses (content r0)) vs))]
                   end) sys None r] /\
    r = cl (length (model_calls lg)) (base ++ [mkMessage "assistant" (CBlocks (content r0))] ++
                   match tool_uses (content r0) with
                   | [] => []
                   | _ => [mkMessage "user" (CResults (pack_results (tool_uses (content r0)) vs))]
                   end) sys None /\
    res = match first_text (content r) with Ret t => LRet t | Raise e => LRaise e end.
Proof.
  revert Hrun. unfold _handle_tool_execution.
  destruct (legacy_exec_blocks ex (content r0) [] lg) as [[m|rs] lg1] eqn:E.
  - intros H; inversion H; subst. exfalso; apply (Hnr m); reflexivity.
  - apply legacy_exec_ok in E as [vs [Hr [Hrs Hl]]]. simpl in Hrs. subst rs lg1.
    pose proof (ran_all_length _ _ _ _ Hr) as Hlen.
    assert (Hmsgs :
      match pack_results (tool_uses (content r0)) vs with
      | [] => base ++ [mkMessage "assistant" (CBlocks (content r0))]
      | _ => (base ++ [mkMessage "assistant" (CBlocks (content r0))]) ++
             [mkMessage "user" (CResults (pack_results (tool_uses (content r0)) vs))]
      end =
      base ++ [mkMessage "assistant" (CBlocks (content r0))] ++
      match tool_uses (content r0) with
      | [] => []
      | _ => [mkMessage "user" (CResults (pack_results (tool_uses (content r0)) vs))]
      end).
    { destruct (tool_uses (content r0)) as [|u us] eqn:Hu.
      - destruct vs; [|discriminate]. simpl. rewrite ?app_nil_r. reflexivity.
      - destruct (pack_results (u :: us) vs) eqn:Hp.
        + apply pack_results_nil in Hp; [discriminate | exact Hlen].
        + rewrite <- app_assoc. reflexivity. }
    cbv zeta. rewrite Hmsgs, make_call_eq; cbn beta iota zeta.
    intros H; inversion H; subst; clear H.
    exists vs. eexists. evlog_simpl. rewrite <- app_assoc. repeat split; eauto.
Qed.

Lemma X_legacy_single_call_witness :
  let r0 := mkResponse "tool_use"
              [ToolUseBlock "toolu_1" "get_course_outline" [("course_name", "Advanced ML")]] in
  let ex := const_exec (VStr "Course 'Advanced ML' not found") in
  let base := [mkMessage "user" (CText "Outline of Advanced ML?")] in
  let cl := scripted [text_resp "That course does not exist."] in
  _handle_tool_execution cl ex r0 base "" [] =
    (LRet "That course does not exist.", snd (_handle_tool_execution cl ex r0 base "" [])) /\
  (forall m, LRet "That course does not exist." <> LToolRaise m) /\
  exists vs r,
    ran_all ex (invocations []) (tool_uses (content r0)) vs /\
    snd (_handle_tool_execution cl ex r0 base "" []) =
      [] ++ map exec_ev (map name_args (tool_uses (content r0))) ++
      [EModelCall (base ++ [mkMessage "assistant" (CBlocks (content r0))] ++
                   match tool_uses (content r0) with
                   | [] => []
                   | _ => [mkMessage "user" (CResults (pack_results (tool_uses (content r0)) vs))]
                   end) "" None r] /\
    r = cl (length (model_calls [])) (base ++ [mkMessage "assistant" (CBlocks (content r0))] ++
                   match tool_uses (content r0) with
                   | [] => []
                   | _ => [mkMessage "user" (CResults (pack_results (tool_uses (content r0)) vs))]
                   end) "" None /\
    LRet "That course does not exist." =
      match first_text (content r) with Ret t => LRet t | Raise e => LRaise e end.
Proof.
  intros r0 ex base cl.
  split; [vm_compute; reflexivity|]. split; [intros m; discriminate|].
  apply (X_legacy_single_call cl ex r0 base "" []); [vm_compute; reflexivity|].
  intros m; discriminate.
Defined.

(** [_handle_tool_execution], when an [execute_tool] raises: the exception
    propagates, after the blocks before it (and the raising one) have been
    executed in order, and no API call is made. *)
Theorem X_legacy_raise_propagates (cl : client) (ex : executor) (r0 : response)
    (base : list message) (sys : string) (lg lg' : list event) (m : string)
    (Hrun : _handle_tool_execution cl ex r0 base sys lg = (LToolRaise m, lg')) :
  model_calls lg' = model_calls lg /\
  exists pre i n a post vs,
    tool_uses (content r0) = pre ++ (i, n, a) :: post /\
    ran_all ex (invocations lg) pre vs /\
    ex (invocations lg ++ map name_args pre) n a = TRaise m /\
    lg' = lg ++ map exec_ev (map name_args pre ++ [(n, a)]).
Proof.
  revert Hrun. unfold _handle_tool_execution.
  destruct (legacy_exec_blocks ex (content r0) [] lg) as [[m'|rs] lg1] eqn:E.
  - intros H; inversion H; subst; clear H.
    apply legacy_exec_raise in E.
    destruct E as [pre [i [n [a [post [vs [Hu [Hr [Hx Hl]]]]]]]]].
    split.
    + rewrite Hl. evlog_simpl. reflexivity.
    + exists pre, i, n, a, post, vs. auto.
  - rewrite make_call_eq; cbn beta iota zeta.
    destruct (first_text _); intros H; discriminate.
Qed.

Lemma X_legacy_raise_propagates_witness :
  _handle_tool_execution (scripted [text_resp "unused"]) raising_exec two_tools_resp
      [mkMessage "user" (CText "q")] "" [] =
    (LToolRaise "Tool 'search_course_content' not found",
     snd (_handle_tool_execution (scripted [text_resp "unused"]) raising_exec two_tools_resp
            [mkMessage "user" (CText "q")] "" [])) /\
  model_calls (snd (_handle_tool_execution (scripted [text_resp "unused"]) raising_exec
                      two_tools_resp [mkMessage "user" (CText "q")] "" [])) = model_calls [] /\
  exists pre i n a post vs,
    tool_uses (content two_tools_resp) = pre ++ (i, n, a) :: post /\
    ran_all raising_exec (invocations []) pre vs /\
    raising_exec (invocations [] ++ map name_args pre) n a =
      TRaise "Tool 'search_course_content' not found" /\
    snd (_handle_tool_execution (scripted [text_resp "unused"]) raising_exec two_tools_resp
           [mkMessage "user" (CText "q")] "" []) =
      [] ++ map exec_ev (map name_args pre ++ [(n, a)]).
Proof.
  split; [vm_compute; reflexivity|].
  apply (X_legacy_raise_propagates (scripted [text_resp "unused"]) raising_exec two_tools_resp
           [mkMessage "user" (CText "q")] "" []).
  vm_compute; reflexivity.
Defined.


(** Every API call of a [generate_response] run is sent with the same
    system content, built once from the history and [max_rounds]. *)
Theorem X_system_content_every_call (cl : client) (query : string) (history : option string)
    (tools : option (list string)) (tm : option executor) (mx : Z) :
  Forall (fun c => call_system c = _build_system_content history mx)
    (model_calls (log (snd (generate_response cl query history tools tm mx)))).
Proof.
  unfold generate_response, _execute_sequential_rounds; cbv zeta.
  apply rounds_loop_system. constructor.
Qed.

(** The conversation is append-only: the messages sent with an API call
    extend those sent with every earlier call, and all of them start with
    the user query. *)
Theorem X_conversation_append_only (cl : client) (query : string) (history : option string)
    (tools : option (list string)) (tm : option executor) (mx : Z) :
  chain_ok (model_calls (log (snd (generate_response cl query history tools tm mx)))) /\
  Forall (fun c => is_prefix [mkMessage "user" (CText query)] (call_msgs c))
    (model_calls (log (snd (generate_response cl query history tools tm mx)))).
Proof.
  unfold generate_response, _execute_sequential_rounds; cbv zeta.
  destruct (rounds_loop_prefix cl (_build_system_content history mx) tools tm mx
              [mkMessage "user" (CText query)] (Z.to_nat mx) 0
              (mkState (_initialize_conversation query history) []))
    as [_ [Hch Hall]].
  - split; [apply is_prefix_refl|]. split; [|constructor].
    intros i j ci cj _ Hi. destruct i; discriminate.
  - split; [exact Hch|]. eapply Forall_impl; [|exact Hall]. intros c [A _]; exact A.
Qed.

(** The [k]-th API call carries the catalog when [k < max_rounds] and none
    after; an empty catalog is never sent. *)
Theorem X_catalog_by_call_index (cl : client) (query : string) (history : option string)
    (tools : option (list string)) (tm : option executor) (mx : Z) (k : nat)
    (c : list message * string * option (list string) * response)
    (Hk : nth_error (model_calls (log (snd (generate_response cl query history tools tm mx)))) k
          = Some c) :
  call_tools c = (if Nat.ltb k (Z.to_nat mx) then api_tools tools else None) /\
  call_tools c <> Some [].
Proof.
  revert Hk. unfold generate_response, _execute_sequential_rounds; cbv zeta. intros Hk.
  assert (Ht : call_tools c = (if Nat.ltb k (Z.to_nat mx) then api_tools tools else None)).
  { eapply (rounds_loop_tools cl _ tools tm mx (Z.to_nat mx) 0
             (mkState (_initialize_conversation query history) []));
      [lia | reflexivity | | | exact Hk].
    - rewrite Z.sub_0_r; reflexivity.
    - intros j c' Hj. destruct j; discriminate. }
  split; [exact Ht|]. rewrite Ht.
  destruct (Nat.ltb k (Z.to_nat mx)); [|discriminate].
  destruct tools as [[|t ts]|]; discriminate.
Qed.

Lemma X_catalog_by_call_index_witness :
  exists c,
    nth_error (model_calls (log (snd budget_run))) 2 = Some c /\
    call_tools c = (if Nat.ltb 2 (Z.to_nat 2) then api_tools (Some catalog) else None) /\
    call_tools c <> Some [].
Proof.
  eexists. split; [vm_compute; reflexivity|].
  apply (X_catalog_by_call_index budget_client "Compare courses" None (Some catalog)
           (Some (const_exec (VStr "Tool result"))) 2 2).
  vm_compute; reflexivity.
Defined.

(** A run ends in one of two ways, after [k <= max_rounds] successful
    rounds, each with its API call: the answer is read from the last
    response, or that response asked for tools, its round failed, and the
    answer is [_handle_tool_failure] of it. *)
Theorem X_run_outcome (cl : client) (query : string) (history : option string)
    (tools : option (list string)) (tm : option executor) (mx : Z) :
  exists k pre c,
    model_calls (log (snd (generate_response cl query history tools tm mx))) = pre ++ [c] /\
    length pre = k /\ k <= Z.to_nat mx /\
    ((rounds_run (log (snd (generate_response cl query history tools tm mx))) = repeat true k /\
      fst (generate_response cl query history tools tm mx) = first_text (content (call_resp c))) \/
     (rounds_run (log (snd (generate_response cl query history tools tm mx))) =
        repeat true k ++ [false] /\
      fst (generate_response cl query history tools tm mx) =
        Ret (_handle_tool_failure (call_resp c)) /\
      stop_reason (call_resp c) = "tool_use")).
Proof.
  unfold generate_response, _execute_sequential_rounds; cbv zeta.
  set (sys := _build_system_content history mx).
  set (st0 := mkState (_initialize_conversation query history) []).
  destruct (rounds_loop_end cl sys tools tm mx (Z.to_nat mx) 0 st0)
    as [k [pre [c [Hm [Hlen Hend]]]]].
  destruct (rounds_loop_bound cl sys tools tm mx (Z.to_nat mx) 0 st0) as [_ Hb].
  exists k, pre, c. split; [exact Hm|]. split; [exact Hlen|].
  simpl in Hm, Hend, Hb. split.
  - destruct Hend as [[Hr _]|[Hr _]]; rewrite Hr in Hb;
      rewrite ?length_app, repeat_length in Hb; simpl in Hb; lia.
  - exact Hend.
Qed.

(** When every tool_use response of the client has a tool_use block, the
    messages sent with the [k]-th API call alternate user and assistant
    turns, [2k + 1] of them, starting and ending with a user turn. *)
Theorem X_roles_alternate (cl : client) (query : string) (history : option string)
    (tools : option (list string)) (tm : option executor) (mx : Z)
    (Hcl : forall i m y t, stop_reason (cl i m y t) = "tool_use" ->
           tool_uses (content (cl i m y t)) <> [])
    (k : nat) (c : list message * string * option (list string) * response)
    (Hk : nth_error (model_calls (log (snd (generate_response cl query history tools tm mx)))) k
          = Some c) :
  map role (call_msgs c) = alt_roles k.
Proof.
  revert Hk. unfold generate_response, _execute_sequential_rounds; cbv zeta.
  apply rounds_loop_roles; [exact Hcl | reflexivity |].
  intros j c' Hj. destruct j; discriminate.
Qed.

Lemma X_roles_alternate_witness :
  (forall i m y t, stop_reason (budget_client i m y t) = "tool_use" ->
     tool_uses (content (budget_client i m y t)) <> []) /\
  exists c,
    nth_error (model_calls (log (snd budget_run))) 2 = Some c /\
    map role (call_msgs c) = alt_roles 2.
Proof.
  assert (Hcl : forall i m y t, stop_reason (budget_client i m y t) = "tool_use" ->
            tool_uses (content (budget_client i m y t)) <> []).
  { intros i m y t H. destruct i as [|[|[|[|i]]]]; cbn in *; try discriminate. }
  split; [exact Hcl|].
  eexists. split; [vm_compute; reflexivity|].
  apply (X_roles_alternate budget_client "Compare courses" None (Some catalog)
           (Some (const_exec (VStr "Tool result"))) 2 Hcl 2).
  vm_compute; reflexivity.
Defined.

(** Without a tool manager, or when the first response does not ask for
    tools, [generate_response] makes a single API call, on the user query
    alone, runs no round and invokes no tool; the answer is read from that
    response. *)
Theorem X_no_round_single_call (cl : client) (query : string) (history : option string)
    (tools : option (list string)) (tm : option executor) (mx : Z)
    (Hno : tm = None \/
           stop_reason (cl 0 [mkMessage "user" (CText query)] (_build_system_content history mx)
                          (if Z.ltb 0 mx then api_tools tools else None)) <> "tool_use") :
  let t := if Z.ltb 0 mx then api_tools tools else None in
  let r := cl 0 [mkMessage "user" (CText query)] (_build_system_content history mx) t in
  model_calls (log (snd (generate_response cl query history tools tm mx))) =
    [([mkMessage "user" (CText query)], _build_system_content history mx, t, r)] /\
  invocations (log (snd (generate_response cl query history tools tm mx))) = [] /\
  rounds_run (log (snd (generate_response cl query history tools tm mx))) = [] /\
  fst (generate_response cl query history tools tm mx) = first_text (content r).
Proof.
  revert Hno. unfold generate_response, _execute_sequential_rounds; cbv zeta.
  destruct (Z.ltb_spec 0 mx) as [Hpos|Hneg].
  - destruct (Z.to_nat mx) as [|f] eqn:Hf; [lia|].
    cbn [rounds_loop]. assert (Hg : (0 <? mx)%Z = true) by (apply Z.ltb_lt; lia).
    rewrite Hg, make_call_eq; cbn beta iota zeta. unfold _initialize_conversation.
    intros [Htm|Hst].
    + subst tm. destruct (negb _); cbn; repeat split.
    + apply String.eqb_neq in Hst. cbn [messages log model_calls length]. rewrite Hst.
      cbn. repeat split.
  - intros _. replace (Z.to_nat mx) with 0%nat by lia.
    final_step. simpl. repeat split.
Qed.

Lemma X_no_round_single_call_witness :
  (None = @None executor \/
   stop_reason (scripted [tool_use_resp "t1" "get_course_outline" [("course_name", "Course A")]]
                 0 [mkMessage "user" (CText "Outline?")] (_build_system_content None 2)
                 (if Z.ltb 0 2 then api_tools (Some catalog) else None)) <> "tool_use") /\
  let t := if Z.ltb 0 2 then api_tools (Some catalog) else None in
  let r := scripted [tool_use_resp "t1" "get_course_outline" [("course_name", "Course A")]]
             0 [mkMessage "user" (CText "Outline?")] (_build_system_content None 2) t in
  model_calls (log (snd (generate_response
     (scripted [tool_use_resp "t1" "get_course_outline" [("course_name", "Course A")]])
     "Outline?" None (Some catalog) None 2))) =
    [([mkMessage "user" (CText "Outline?")], _build_system_content None 2, t, r)] /\
  invocations (log (snd (generate_response
     (scripted [tool_use_resp "t1" "get_course_outline" [("course_name", "Course A")]])
     "Outline?" None (Some catalog) None 2))) = [] /\
  rounds_run (log (snd (generate_response
     (scripted [tool_use_resp "t1" "get_course_outline" [("course_name", "Course A")]])
     "Outline?" None (Some catalog) None 2))) = [] /\
  fst (generate_response
     (scripted [tool_use_resp "t1" "get_course_outline" [("course_name", "Course A")]])
     "Outline?" None (Some catalog) None 2) = first_text (content r).
Proof.
  split; [left; reflexivity|].
  apply (X_no_round_single_call
           (scripted [tool_use_resp "t1" "get_course_outline" [("course_name", "Course A")]])
           "Outline?" None (Some catalog) None 2).
  left; reflexivity.
Defined.

(** * Claims resting on the loop invariants *)

Lemma ran_all_passes ex h us vs :
  ran_all ex h us vs -> Forall passes_check vs -> ran ex h us vs.
Proof.
  induction 1 as [|h i n a us v vs Ex Hr IH]; intros Hp; constructor.
  - exact Ex.
  - inversion Hp; subst. destruct v; simpl in *; auto.
  - apply IH. inversion Hp; auto.
Qed.

Lemma ran_run_tool_blocks ex bs : forall acc st vs,
  ran ex (invocations (log st)) (tool_uses bs) vs ->
  exists st', run_tool_blocks ex bs acc st = (Some (acc ++ pack_results (tool_uses bs) vs), st')
              /\ messages st' = messages st.
Proof.
  induction bs as [|[t|i n a] bs IH]; intros acc st vs H; simpl in *.
  - inversion H; subst. exists st. rewrite app_nil_r. auto.
  - apply IH; exact H.
  - inversion H as [|h i' n' a' us v vs' Ex Nf Hr]; subst.
    rewrite Ex, Nf.
    destruct (IH (acc ++ [mkToolResult i v]) (add_event st (EToolExec n a)) vs') as [st' [E Hm]].
    { simpl. evlog_simpl. exact Hr. }
    exists st'. rewrite E, <- app_assoc. auto.
Qed.

Lemma aborts_round_cases o :
  aborts_round o = true ->
  (exists m, o = TRaise m) \/ (exists s, o = TRet (VStr s) /\ contains "not found" (lower s) = true).
Proof.
  destruct o as [[s|rep]|m]; simpl; intros H.
  - right; eauto.
  - discriminate.
  - left; eauto.
Qed.

Lemma steps_snoc m0 cs m y t r :
  steps_ok cs -> entry_ok m0 cs m -> steps_ok (cs ++ [(m, y, t, r)]).
Proof.
  intros Hs He k c c' Hk Hk'.
  destruct (Nat.lt_ge_cases (S k) (length cs)) as [Hlt|Hge].
  - rewrite nth_error_app1 in Hk by lia. rewrite nth_error_app1 in Hk' by exact Hlt.
    eapply Hs; eauto.
  - assert (Heq : S k = length cs).
    { assert (Hl : S k < length (cs ++ [(m, y, t, r)]))
        by (apply nth_error_Some; congruence).
      rewrite length_app in Hl; simpl in Hl; lia. }
    rewrite nth_error_app2 in Hk' by lia. rewrite <- Heq, Nat.sub_diag in Hk'.
    simpl in Hk'; inversion Hk'; subst c'; simpl.
    destruct He as [[-> _]|[pre [c0 [-> Hst]]]]; [simpl in Heq; lia|].
    rewrite length_app in Heq; simpl in Heq.
    rewrite <- app_assoc, nth_error_app2 in Hk by lia.
    replace (k - length pre) with 0 in Hk by lia. simpl in Hk; inversion Hk; subst c0.
    exact Hst.
Qed.

Lemma first_snoc m0 cs m y t r :
  first_ok m0 cs -> entry_ok m0 cs m -> first_ok m0 (cs ++ [(m, y, t, r)]).
Proof.
  intros Hf He c Hc. destruct cs as [|c1 cs].
  - destruct He as [[_ ->]|[pre [c0 [Hpre _]]]].
    + simpl in Hc; inversion Hc; reflexivity.
    + destruct pre; discriminate.
  - apply Hf. exact Hc.
Qed.

Section TurnsPerRound.

Variable cl : client.
Variable sys : string.
Variable tools : option (list string).
Variable tm : option executor.
Variable mx : Z.
Variable m0 : list message.

Hypothesis Hcl : forall i m y t, stop_reason (cl i m y t) = "tool_use" ->
  tool_uses (content (cl i m y t)) <> [].

Lemma rounds_loop_steps fuel : forall cur st,
  steps_ok (model_calls (log st)) -> first_ok m0 (model_calls (log st)) ->
  entry_ok m0 (model_calls (log st)) (messages st) ->
  steps_ok (model_calls (log (snd (rounds_loop cl sys tools tm mx fuel cur st)))) /\
  first_ok m0 (model_calls (log (snd (rounds_loop cl sys tools tm mx fuel cur st)))).
Proof.
  induction fuel as [|f IH]; intros cur st Hs Hf He.
  - final_step; simpl; evlog_simpl; simpl.
    split; [eapply steps_snoc | eapply first_snoc]; eauto.
  - loop_step.
    + assert (H1 : steps_ok (model_calls (log st1)) /\ first_ok m0 (model_calls (log st1)))
        by (subst st1; simpl; evlog_simpl; simpl;
            split; [eapply steps_snoc | eapply first_snoc]; eauto).
      assert (Hc1 : model_calls (log st1) =
                    model_calls (log st) ++ [(messages st, sys, api_tools tools, r)])
        by (subst st1; simpl; evlog_simpl; reflexivity).
      assert (Hm1 : messages st1 = messages st) by (subst st1; reflexivity).
      assert (Hu : stop_reason r = "tool_use" -> tool_uses (content r) <> []) by apply Hcl.
      clearbody st1 r.
      destruct (stop_reason r =? "tool_use")%string eqn:Hsr; cbn [negb]; [|exact H1].
      apply String.eqb_eq in Hsr. specialize (Hu Hsr).
      destruct tm as [ex|]; [|exact H1].
      destruct (_execute_tools_and_update_messages ex r st1) as [ok st2] eqn:E.
      destruct (round_effects _ _ _ _ _ E) as [Hc [_ [Hm3 _]]].
      destruct ok; cbn [negb snd]; [|rewrite Hc; exact H1].
      destruct H1 as [Hs1 Hf1].
      apply IH; rewrite ?Hc; [exact Hs1 | exact Hf1 |].
      right. exists (model_calls (log st)), (messages st, sys, api_tools tools, r).
      split; [exact Hc1|].
      destruct (exec_tools_true _ _ _ _ E) as [vs [Hr [_ Hm2]]].
      exists (pack_results (tool_uses (content r)) vs). simpl.
      rewrite ?Hm3, Hm2, Hm1. split; [|split; [exact Hu|]].
      * destruct (tool_uses (content r)); [contradiction | reflexivity].
      * apply map_use_id_pack. eapply ran_length; exact Hr.
    + final_step; simpl; evlog_simpl; simpl.
      split; [eapply steps_snoc | eapply first_snoc]; eauto.
Qed.

End TurnsPerRound.

Lemma steps_length m0 cs :
  steps_ok cs -> first_ok m0 cs ->
  forall k c, nth_error cs k = Some c -> length (call_msgs c) = length m0 + 2 * k.
Proof.
  intros Hs Hf k; induction k as [|k IH]; intros c Hk.
  - rewrite (Hf c Hk). lia.
  - assert (Hlt : k < length cs).
    { assert (S k < length cs) by (apply nth_error_Some; congruence). lia. }
    destruct (nth_error cs k) as [c0|] eqn:Hk0; [|apply nth_error_None in Hk0; lia].
    destruct (Hs k c0 c Hk0 Hk) as [rs [Hm _]].
    rewrite Hm, length_app, (IH c0 eq_refl). simpl. lia.
Qed.

Lemma filter_repeat_true k : filter (fun b : bool => b) (repeat true k) = repeat true k.
Proof. induction k; simpl; rewrite ?IHk; reflexivity. Qed.

(** C4 (amended): with a non-empty catalog and no tool manager, exactly
    one API call is made, on the user query alone; with [max_rounds >= 1]
    it is the loop's call and it carries the catalog, with
    [max_rounds <= 0] it is the call after the loop, without it. *)
Theorem C4_single_call_with_catalog (cl : client) (query : string) (history : option string)
    (t : string) (ts : list string) (mx : Z) :
  model_calls (log (snd (generate_response cl query history (Some (t :: ts)) None mx))) =
    [([mkMessage "user" (CText query)], _build_system_content history mx,
      (if Z.ltb 0 mx then Some (t :: ts) else None),
      cl 0 [mkMessage "user" (CText query)] (_build_system_content history mx)
        (if Z.ltb 0 mx then Some (t :: ts) else None))].
Proof.
  unfold generate_response, _execute_sequential_rounds, _initialize_conversation; cbv zeta.
  destruct (Z.ltb_spec 0 mx) as [Hpos|Hneg].
  - destruct (Z.to_nat mx) as [|f] eqn:Hf; [lia|].
    cbn [rounds_loop]. assert (Hg : (0 <? mx)%Z = true) by (apply Z.ltb_lt; lia).
    rewrite Hg, make_call_eq; cbn beta iota zeta.
    destruct (negb _); reflexivity.
  - replace (Z.to_nat mx) with 0%nat by lia.
    final_step. reflexivity.
Qed.

(** C5: when every tool_use response carries at least one tool_use block,
    the first API call is sent with the user query alone; every completed
    round is followed by one more API call, whose messages are those of
    the previous call plus exactly one assistant turn (the response, with
    its tool_use blocks) and one user turn (one result per block); so the
    call after [k] completed rounds is sent with [1 + 2k] turns. *)
Theorem C5_turns_after_rounds (cl : client) (query : string) (history : option string)
    (tools : option (list string)) (tm : option executor) (mx : Z)
    (Hcl : forall i m y t, stop_reason (cl i m y t) = "tool_use" ->
           tool_uses (content (cl i m y t)) <> []) :
  let st := snd (generate_response cl query history tools tm mx) in
  (forall c, nth_error (model_calls (log st)) 0 = Some c ->
     call_msgs c = [mkMessage "user" (CText query)]) /\
  length (model_calls (log st)) = S (length (filter (fun b : bool => b) (rounds_run (log st)))) /\
  (forall k c c', nth_error (model_calls (log st)) k = Some c ->
     nth_error (model_calls (log st)) (S k) = Some c' -> round_step c (call_msgs c')) /\
  (forall k c, nth_error (model_calls (log st)) k = Some c -> length (call_msgs c) = 1 + 2 * k).
Proof.
  unfold generate_response, _execute_sequential_rounds; cbv zeta.
  set (sys := _build_system_content history mx).
  set (st0 := mkState (_initialize_conversation query history) []).
  destruct (rounds_loop_steps cl sys tools tm mx [mkMessage "user" (CText query)] Hcl
              (Z.to_nat mx) 0 st0) as [Hs Hf].
  - intros k c c' Hk. destruct k; discriminate.
  - intros c Hc; discriminate.
  - left; split; reflexivity.
  - split; [exact Hf|]. split; [|split; [exact Hs|]].
    + destruct (rounds_loop_end cl sys tools tm mx (Z.to_nat mx) 0 st0)
        as [k [pre [c [Hm [Hlen Hend]]]]].
      rewrite Hm. simpl.
      destruct Hend as [[Hr _]|[Hr _]]; rewrite Hr; simpl;
        rewrite ?filter_app, filter_repeat_true; simpl;
        rewrite ?app_nil_r, ?length_app, ?repeat_length; simpl; lia.
    + intros k c Hk. rewrite (steps_length _ _ Hs Hf k c Hk). reflexivity.
Qed.

Lemma C5_turns_after_rounds_witness :
  (forall i m y t, stop_reason (budget_client i m y t) = "tool_use" ->
     tool_uses (content (budget_client i m y t)) <> []) /\
  let st := snd (generate_response budget_client "Compare courses" None (Some catalog)
                   (Some (const_exec (VStr "Tool result"))) 2) in
  (forall c, nth_error (model_calls (log st)) 0 = Some c ->
     call_msgs c = [mkMessage "user" (CText "Compare courses")]) /\
  length (model_calls (log st)) = S (length (filter (fun b : bool => b) (rounds_run (log st)))) /\
  (forall k c c', nth_error (model_calls (log st)) k = Some c ->
     nth_error (model_calls (log st)) (S k) = Some c' -> round_step c (call_msgs c')) /\
  (forall k c, nth_error (model_calls (log st)) k = Some c -> length (call_msgs c) = 1 + 2 * k).
Proof.
  assert (Hcl : forall i m y t, stop_reason (budget_client i m y t) = "tool_use" ->
            tool_uses (content (budget_client i m y t)) <> []).
  { intros i m y t H. destruct i as [|[|[|[|i]]]]; cbn in *; try discriminate. }
  split; [exact Hcl|].
  exact (C5_turns_after_rounds budget_client "Compare courses" None (Some catalog)
           (Some (const_exec (VStr "Tool result"))) 2 Hcl).
Defined.

(** C8: only string results are checked for "not found". When a round
    fails, the failing invocation raised or returned a string holding
    "not found" in some case, never a non-string value; and when every
    invocation of a round returns, with non-string values of any content
    and strings without "not found", the round succeeds and every value,
    non-string ones included, is packed as a tool result in block order. *)
Theorem C8_non_string_results_pass (ex : executor) (r : response) (st : state) :
  (forall st', _execute_tools_and_update_messages ex r st = (false, st') ->
     exists pre i n a post vs,
       tool_uses (content r) = pre ++ (i, n, a) :: post /\
       ran ex (invocations (log st)) pre vs /\
       ((exists m, ex (invocations (log st) ++ map name_args pre) n a = TRaise m) \/
        (exists s, ex (invocations (log st) ++ map name_args pre) n a = TRet (VStr s) /\
                   contains "not found" (lower s) = true))) /\
  (forall vs, ran_all ex (invocations (log st)) (tool_uses (content r)) vs ->
     Forall passes_check vs ->
     exists st', _execute_tools_and_update_messages ex r st = (true, st') /\
       messages st' = messages st ++ [mkMessage "assistant" (CBlocks (content r))] ++
         match tool_uses (content r) with
         | [] => []
         | _ => [mkMessage "user" (CResults (pack_results (tool_uses (content r)) vs))]
         end).
Proof.
  split.
  - intros st' Hfail.
    destruct (exec_tools_false _ _ _ _ Hfail) as [_ [pre [i [n [a [post [vs [Hu [Hr [Ha _]]]]]]]]]].
    exists pre, i, n, a, post, vs. repeat split; auto.
    apply aborts_round_cases; exact Ha.
  - intros vs Hall Hp.
    pose proof (ran_all_passes _ _ _ _ Hall Hp) as Hr.
    pose proof (ran_length _ _ _ _ Hr) as Hlen.
    unfold _execute_tools_and_update_messages.
    destruct (ran_run_tool_blocks ex (content r) []
                (add_message st (mkMessage "assistant" (CBlocks (content r)))) vs Hr)
      as [st2 [E Hm]].
    rewrite E; simpl.
    destruct (tool_uses (content r)) as [|u us] eqn:Hu.
    + destruct vs; [|discriminate]. simpl. eexists; split; [reflexivity|].
      rewrite Hm. reflexivity.
    + destruct (pack_results (u :: us) vs) eqn:Hpk.
      * apply pack_results_nil in Hpk; [discriminate | exact Hlen].
      * eexists; split; [reflexivity|]. simpl. rewrite Hm. simpl. rewrite <- app_assoc. reflexivity.
Qed.

Lemma C8_non_string_results_pass_witness :
  (_execute_tools_and_update_messages outline_fails_exec two_tools_resp (start_state "q") =
     (false, snd (_execute_tools_and_update_messages outline_fails_exec two_tools_resp
                    (start_state "q"))) /\
   exists pre i n a post vs,
     tool_uses (content two_tools_resp) = pre ++ (i, n, a) :: post /\
     ran outline_fails_exec (invocations (log (start_state "q"))) pre vs /\
     ((exists m, outline_fails_exec (invocations (log (start_state "q")) ++ map name_args pre) n a
                   = TRaise m) \/
      (exists s, outline_fails_exec (invocations (log (start_state "q")) ++ map name_args pre) n a
                   = TRet (VStr s) /\ contains "not found" (lower s) = true))) /\
  (ran_all mixed_exec (invocations (log (start_state "q"))) (tool_uses (content two_tools_resp))
     [VStr "[Course A - Lesson 1] Introduction"; VObj "{'lessons': ['Lesson 3 not found']}"] /\
   Forall passes_check
     [VStr "[Course A - Lesson 1] Introduction"; VObj "{'lessons': ['Lesson 3 not found']}"] /\
   exists st', _execute_tools_and_update_messages mixed_exec two_tools_resp (start_state "q")
                 = (true, st') /\
     messages st' = messages (start_state "q") ++
       [mkMessage "assistant" (CBlocks (content two_tools_resp))] ++
       match tool_uses (content two_tools_resp) with
       | [] => []
       | _ => [mkMessage "user" (CResults (pack_results (tool_uses (content two_tools_resp))
                 [VStr "[Course A - Lesson 1] Introduction";
                  VObj "{'lessons': ['Lesson 3 not found']}"]))]
       end).
Proof.
  assert (Hall : ran_all mixed_exec (invocations (log (start_state "q")))
                   (tool_uses (content two_tools_resp))
                   [VStr "[Course A - Lesson 1] Introduction";
                    VObj "{'lessons': ['Lesson 3 not found']}"]).
  { apply ra_cons; [reflexivity|]. apply ra_cons; [reflexivity|]. apply ra_nil. }
  assert (Hp : Forall passes_check
                 [VStr "[Course A - Lesson 1] Introduction";
                  VObj "{'lessons': ['Lesson 3 not found']}"]).
  { constructor; [vm_compute; reflexivity|]. constructor; [exact I | constructor]. }
  split.
  - split; [vm_compute; reflexivity|].
    apply (proj1 (C8_non_string_results_pass outline_fails_exec two_tools_resp (start_state "q"))
             (snd (_execute_tools_and_update_messages outline_fails_exec two_tools_resp
                     (start_state "q")))).
    vm_compute; reflexivity.
  - split; [exact Hall|]. split; [exact Hp|].
    exact (proj2 (C8_non_string_results_pass mixed_exec two_tools_resp (start_state "q")) _ Hall Hp).
Defined.

(** * Scenario checks *)

Example failing_round_scenario :
  generate_response (scripted [two_tools_resp; text_resp "unused"]) "Compare" None
    (Some catalog) (Some outline_fails_exec) 2 =
  (Ret "Let me look that up.",
   {| messages := [mkMessage "user" (CText "Compare");
                   mkMessage "assistant" (CBlocks (content two_tools_resp))];
      log := [EModelCall [mkMessage "user" (CText "Compare")]
                (_build_system_content None 2) (Some catalog) two_tools_resp;
              EToolExec "search_course_content" [("query", "introduction")];
              EToolExec "get_course_outline" [("course_name", "Advanced ML")];
              ERound false] |}).
Proof. vm_compute. reflexivity. Qed.

End AIGen.
